(** * Molecule service: a shallow embedding of [src/molecules/service.py]

    The service keeps a collection of molecules, each identified by an
    integer id and carrying a SMILES string, and answers identity
    queries, substructure queries in both directions and a CSV bulk
    import.  The embedding threads the record store through a small
    state-and-exception monad; RDKit (parsing and substructure matching)
    is an interface of the development. *)

From stdpp Require Import base strings list gmap pretty.
From Stdlib Require Import ZArith Lia.

Local Open Scope Z_scope.

(** ** Data model *)

(** [MoleculeRequest(smiles, name, description)], the body of a create
    or update call.  The schema module is not part of the sources; the
    fields are the ones [save], [update] and [process_csv_file] read and
    write. *)
Record MoleculeRequest := mkRequest {
  req_smiles : string;
  req_name : option string;
  req_description : option string
}.

(** A stored molecule.  [molecule_id] is fixed at construction. *)
Record Molecule := mkMolecule {
  molecule_id : Z;
  smiles : string;
  name : option string;
  description : option string
}.

(** What the service hands back to its caller. *)
Record MoleculeResponse := mkResponse {
  resp_molecule_id : Z;
  resp_smiles : string;
  resp_name : option string;
  resp_description : option string
}.

Global Instance MoleculeRequest_eq_dec : EqDecision MoleculeRequest.
Proof. solve_decision. Defined.
Global Instance Molecule_eq_dec : EqDecision Molecule.
Proof. solve_decision. Defined.
Global Instance MoleculeResponse_eq_dec : EqDecision MoleculeResponse.
Proof. solve_decision. Defined.

(** Modelled from the spec: [Molecule.to_response] (the ORM model is
    absent from the sources); the record representation is
    [{id, notation, name, description}]. *)
Definition to_response (m : Molecule) : MoleculeResponse :=
  {| resp_molecule_id := molecule_id m;
     resp_smiles := smiles m;
     resp_name := name m;
     resp_description := description m |}.

Global Instance to_response_inj : Inj (=) (=) to_response.
Proof. intros [] [] [=]; by simplify_eq/=. Qed.

(** The state the service works on: the table, in insertion order, and
    the next id to hand out. *)
Record Store := mkStore {
  molecules : list Molecule;
  next_id : Z
}.

(** Modelled from the spec: the empty store (the store itself is absent
    from the sources); it has no row and has issued no id, and the
    first id it assigns is 1. *)
Definition empty_store : Store := {| molecules := []; next_id := 1 |}.

(** ** Exceptions *)

Inductive Exception :=
| UnknownIdentifierException (obj_id : Z)
| DuplicateSmilesException (s : string)
| InvalidSmilesException (s : string)
| InvalidCsvHeaderColumnsException (missing_columns : gset string)
| RuntimeFault (what : string).

(** ** The monad: a store threaded through calls that may raise *)

Inductive Outcome (A : Type) :=
| Ok (a : A)
| Raise (e : Exception).
Arguments Ok {A} a.
Arguments Raise {A} e.

Definition M (A : Type) : Type := Store → Outcome A * Store.

Definition ret {A} (a : A) : M A := λ st, (Ok a, st).

Definition raise {A} (e : Exception) : M A := λ st, (Raise e, st).

Definition bind {A B} (c : M A) (k : A → M B) : M B :=
  λ st, match c st with
        | (Ok a, st') => k a st'
        | (Raise e, st') => (Raise e, st')
        end.

(** [try: body except Exception: handler] *)
Definition try_except {A} (body : M A) (handler : Exception → M A) : M A :=
  λ st, match body st with
        | (Ok a, st') => (Ok a, st')
        | (Raise e, st') => handler e st'
        end.

Notation "x <~ c ;; k" := (bind c (λ x, k))
  (at level 100, c at next level, right associativity).
Notation "c ;;; k" := (bind c (λ _, k))
  (at level 100, right associativity).

Definition result {A} (c : M A) (st : Store) : Outcome A := fst (c st).
Definition final {A} (c : M A) (st : Store) : Store := snd (c st).

(** ** [Molecule.__init__] (src/models.py) *)

(** The id is the current value of the class counter, which is then
    incremented; the counter of the class is the [next_id] of the state
    the molecule is built in. *)
Definition Molecule_init (s : string) (n d : option string) : M Molecule :=
  λ st, (Ok {| molecule_id := next_id st; smiles := s;
               name := n; description := d |},
         {| molecules := molecules st; next_id := next_id st + 1 |}).

(** ** RDKit, as an interface *)

(** [Chem.MolFromSmiles] returns a molecule handle or [None];
    [target.HasSubstructMatch(pattern)] tells whether [pattern] occurs
    in [target]. *)
Class Chem := {
  Mol : Type;
  MolFromSmiles : string → option Mol;
  HasSubstructMatch : Mol → Mol → bool
}.

(** ** The repository *)

Module MoleculeRepository.

(** Modelled from the spec: [MoleculeRepository.find_by_id] (the
    repository module is absent from the sources); a point lookup that
    reports a miss as [None]. *)
Definition find_by_id (obj_id : Z) : M (option Molecule) :=
  λ st, (Ok (List.find (λ m, bool_decide (molecule_id m = obj_id)) (molecules st)), st).

(** Modelled from the spec: [MoleculeRepository.find_all]; with no
    pagination arguments the whole table in insertion order, otherwise
    the zero-indexed page of [page_size] rows.  Negative arguments are
    read as zero. *)
Definition find_all (pagination : option (Z * Z)) : M (list Molecule) :=
  λ st, (Ok (match pagination with
             | None => molecules st
             | Some (page, page_size) =>
                 take (Z.to_nat page_size)
                      (drop (Z.to_nat page * Z.to_nat page_size)%nat (molecules st))
             end), st).

(** Modelled from the spec: [MoleculeRepository.save] (the store's
    insert); assigns a fresh id, the next one of the store, to the
    dumped request and appends the row to the table. *)
Definition save (data : MoleculeRequest) : M Molecule :=
  λ st,
    let mol := {| molecule_id := next_id st; smiles := req_smiles data;
                  name := req_name data; description := req_description data |} in
    (Ok mol, {| molecules := molecules st ++ [mol]; next_id := next_id st + 1 |}).

Definition replace_fields (data : MoleculeRequest) (m : Molecule) : Molecule :=
  {| molecule_id := molecule_id m;
     smiles := req_smiles data;
     name := req_name data;
     description := req_description data |}.

(** Modelled from the spec: [MoleculeRepository.update]; replaces the
    mutable fields of the row with that id in place and returns the
    row. *)
Definition update (obj_id : Z) (data : MoleculeRequest) : M (option Molecule) :=
  λ st,
    let ms := (λ m, if bool_decide (molecule_id m = obj_id)
                    then replace_fields data m else m) <$> molecules st in
    (Ok (List.find (λ m, bool_decide (molecule_id m = obj_id)) ms),
     {| molecules := ms; next_id := next_id st |}).

(** Modelled from the spec: [MoleculeRepository.delete]; true if a row
    existed and was removed. *)
Definition delete (obj_id : Z) : M bool :=
  λ st,
    (Ok (bool_decide (Exists (λ m, molecule_id m = obj_id) (molecules st))),
     {| molecules := filter (λ m, molecule_id m ≠ obj_id) (molecules st);
        next_id := next_id st |}).

(** Modelled from the spec: [MoleculeRepository.filter], called with
    [smiles=...] only: the rows whose notation is that very string. *)
Definition filter (s : string) : M (list Molecule) :=
  λ st, (Ok (base.filter (λ m, smiles m = s) (molecules st)), st).

End MoleculeRepository.

(** ** The service, chemistry-free part (src/molecules/service.py) *)

Module MoleculeService.

Definition required_columns : gset string := {[ "smiles"; "name" ]}.

Definition exists_by_id (obj_id : Z) : M bool :=
  r <~ MoleculeRepository.find_by_id obj_id ;;
  ret (bool_decide (r ≠ None)).

(** [mol.to_response()] on [None] is an [AttributeError]. *)
Definition to_response_or_fault (mol : option Molecule) : M MoleculeResponse :=
  match mol with
  | Some m => ret (to_response m)
  | None => raise (RuntimeFault "AttributeError")
  end.

Definition find_by_id (obj_id : Z) : M MoleculeResponse :=
  found <~ exists_by_id obj_id ;;
  if negb found then raise (UnknownIdentifierException obj_id)
  else
    mol <~ MoleculeRepository.find_by_id obj_id ;;
    to_response_or_fault mol.

Definition save (molecule_request : MoleculeRequest) : M MoleculeResponse :=
  same_smiles <~ MoleculeRepository.filter (req_smiles molecule_request) ;;
  if bool_decide (0 < length same_smiles)%nat
  then raise (DuplicateSmilesException (req_smiles molecule_request))
  else
    mol <~ MoleculeRepository.save molecule_request ;;
    ret (to_response mol).

Definition update (obj_id : Z) (molecule_request : MoleculeRequest) : M MoleculeResponse :=
  found <~ exists_by_id obj_id ;;
  if negb found then raise (UnknownIdentifierException obj_id)
  else
    same_smiles <~ MoleculeRepository.filter (req_smiles molecule_request) ;;
    if bool_decide (0 < length same_smiles)%nat
       && bool_decide (molecule_id <$> head same_smiles ≠ Some obj_id)
    then raise (DuplicateSmilesException (req_smiles molecule_request))
    else
      mol <~ MoleculeRepository.update obj_id molecule_request ;;
      to_response_or_fault mol.

Definition find_all (page page_size : Z) : M (list MoleculeResponse) :=
  found <~ MoleculeRepository.find_all (Some (page, page_size)) ;;
  ret (to_response <$> found).

Definition delete (obj_id : Z) : M bool :=
  found <~ exists_by_id obj_id ;;
  if negb found then raise (UnknownIdentifierException obj_id)
  else MoleculeRepository.delete obj_id.

Section chemistry.
Context `{Chem}.

(** Modelled from the spec: [is_valid_smiles] (the utils module is
    absent from the sources); the notation parses into a handle. *)
Definition is_valid_smiles (s : string) : bool :=
  bool_decide (is_Some (MolFromSmiles s)).

(** Modelled from the spec: [get_chem_molecule_from_smiles_or_raise_exception];
    the handle, or [InvalidSmilesException] carrying the notation. *)
Definition get_chem_molecule_from_smiles_or_raise_exception (s : string) : M Mol :=
  match MolFromSmiles s with
  | Some mol => ret mol
  | None => raise (InvalidSmilesException s)
  end.

(** Modelled from the spec: [Molecule.to_chem]; the stored record's own
    notation, parsed. *)
Definition to_chem (m : Molecule) : option Mol := MolFromSmiles (smiles m).

(** The matcher takes handles only: a stored notation without a handle
    ends the call with a fault. *)
Definition stored_handle (m : Molecule) : M Mol :=
  match to_chem m with
  | Some c => ret c
  | None => raise (RuntimeFault "HasSubstructMatch")
  end.

(** The loop of [get_substructures]. *)
Fixpoint substructures_loop (mol : Mol) (found : list Molecule)
    (substructures : list MoleculeResponse) : M (list MoleculeResponse) :=
  match found with
  | [] => ret substructures
  | molecule :: rest =>
      c <~ stored_handle molecule ;;
      if HasSubstructMatch mol c
      then substructures_loop mol rest (substructures ++ [to_response molecule])
      else substructures_loop mol rest substructures
  end.

Definition get_substructures (s : string) : M (list MoleculeResponse) :=
  mol <~ get_chem_molecule_from_smiles_or_raise_exception s ;;
  found <~ MoleculeRepository.find_all None ;;
  substructures_loop mol found [].

(** The loop of [get_is_substructure_of]. *)
Fixpoint is_substructure_of_loop (mol : Mol) (found : list Molecule)
    (is_substructure_of : list MoleculeResponse) : M (list MoleculeResponse) :=
  match found with
  | [] => ret is_substructure_of
  | molecule :: rest =>
      c <~ stored_handle molecule ;;
      if HasSubstructMatch c mol
      then is_substructure_of_loop mol rest (is_substructure_of ++ [to_response molecule])
      else is_substructure_of_loop mol rest is_substructure_of
  end.

Definition get_is_substructure_of (s : string) : M (list MoleculeResponse) :=
  mol <~ get_chem_molecule_from_smiles_or_raise_exception s ;;
  found <~ MoleculeRepository.find_all None ;;
  is_substructure_of_loop mol found [].

(** *** CSV import *)

(** [csv.DictReader.__next__] on one non-blank row: the fields are
    zipped with the field names, a later duplicate name winning, and the
    names beyond a short row get [None].  Fields beyond the names go
    under the key [None], which the service never reads. *)
Definition dict_row (fieldnames row : list string) : gmap string (option string) :=
  let d := foldl (λ d kv, <[kv.1 := Some kv.2]> d) ∅ (zip fieldnames row) in
  foldl (λ d key, <[key := None]> d) d (drop (length row) fieldnames).

(** [row[key]]; a [KeyError] when the key is missing. *)
Definition getitem (row : gmap string (option string)) (key : string) : M (option string) :=
  match row !! key with
  | Some v => ret v
  | None => raise (RuntimeFault "KeyError")
  end.

(** The body of the [try] in [process_csv_file].  A row too short to
    reach the smiles column reads [None] there, which is no notation. *)
Definition process_row (row : gmap string (option string)) : M MoleculeResponse :=
  smiles_field <~ getitem row "smiles" ;;
  match smiles_field with
  | None => raise (RuntimeFault "TypeError")
  | Some s =>
      if negb (is_valid_smiles s) then raise (InvalidSmilesException s)
      else
        name_field <~ getitem row "name" ;;
        save {| req_smiles := s; req_name := name_field; req_description := None |}
  end.

(** The [for row in csv_reader] loop; the reader skips blank rows, and
    a row that raises is printed and left behind. *)
Fixpoint rows_loop (fieldnames : list string) (rows : list (list string))
    (number_of_molecules_added : Z) : M Z :=
  match rows with
  | [] => ret number_of_molecules_added
  | [] :: rest => rows_loop fieldnames rest number_of_molecules_added
  | row :: rest =>
      n <~ try_except
             (process_row (dict_row fieldnames row) ;;;
              ret (number_of_molecules_added + 1))
             (λ e, ret number_of_molecules_added) ;;
      rows_loop fieldnames rest n
  end.

Definition validate_csv_header_columns (columns : gset string) : M unit :=
  let missing_columns := required_columns ∖ columns in
  if bool_decide (missing_columns ≠ ∅)
  then raise (InvalidCsvHeaderColumnsException missing_columns)
  else ret tt.

(** [process_csv_file], on the rows [csv.reader] yields for the decoded
    contents.  With no row at all [fieldnames] is [None] and [set(None)]
    is a [TypeError]. *)
Definition process_csv_file (lines : list (list string)) : M Z :=
  match lines with
  | [] => raise (RuntimeFault "TypeError")
  | fieldnames :: rows =>
      validate_csv_header_columns (list_to_set fieldnames) ;;;
      rows_loop fieldnames rows 0
  end.

End chemistry.

End MoleculeService.

(** ** A small chemistry to run the service on

    Handles are the notations themselves; a notation parses when it is
    non-empty and written in the SMILES alphabet, and a pattern matches
    a target when it occurs in it as a contiguous piece. *)

Module ToyChem.

Definition alphabet : string :=
  "ABCDEFGHIJKLMNOPQRSTUVWXYZabcdefghijklmnopqrstuvwxyz0123456789()[]=#+-@/\.%".

Fixpoint mem_ascii (a : Ascii.ascii) (s : string) : bool :=
  match s with
  | EmptyString => false
  | String b s' => Ascii.eqb a b || mem_ascii a s'
  end.

Fixpoint all_in_alphabet (s : string) : bool :=
  match s with
  | EmptyString => true
  | String a s' => mem_ascii a alphabet && all_in_alphabet s'
  end.

Fixpoint starts_with (pattern target : string) : bool :=
  match pattern, target with
  | EmptyString, _ => true
  | String a p', String b t' => Ascii.eqb a b && starts_with p' t'
  | String _ _, EmptyString => false
  end.

Fixpoint occurs_in (pattern target : string) : bool :=
  starts_with pattern target ||
  match target with
  | EmptyString => false
  | String _ t' => occurs_in pattern t'
  end.

Definition parse (s : string) : option string :=
  match s with
  | EmptyString => None
  | _ => if all_in_alphabet s then Some s else None
  end.

Definition chem : Chem :=
  {| Mol := string;
     MolFromSmiles := parse;
     HasSubstructMatch := λ target pattern, occurs_in pattern target |}.

End ToyChem.

(** ** Vocabulary of the specification *)

Definition has_id (st : Store) (obj_id : Z) : Prop :=
  Exists (λ m, molecule_id m = obj_id) (molecules st).

Definition holds_smiles (st : Store) (s : string) : Prop :=
  Exists (λ m, smiles m = s) (molecules st).

(** Another record than [obj_id] carries the notation. *)
Definition held_by_other (st : Store) (obj_id : Z) (s : string) : Prop :=
  Exists (λ m, smiles m = s ∧ molecule_id m ≠ obj_id) (molecules st).

Global Instance has_id_dec st obj_id : Decision (has_id st obj_id).
Proof. unfold has_id. apply _. Defined.
Global Instance holds_smiles_dec st s : Decision (holds_smiles st s).
Proof. unfold holds_smiles. apply _. Defined.
Global Instance held_by_other_dec st obj_id s : Decision (held_by_other st obj_id s).
Proof. unfold held_by_other. apply _. Defined.

(** The test of [update]: [len(same_smiles) > 0 and same_smiles[0].molecule_id != obj_id]. *)
Definition update_guard (st : Store) (obj_id : Z) (s : string) : bool :=
  bool_decide (0 < length (filter (λ m, smiles m = s) (molecules st)))%nat
  && bool_decide (molecule_id <$> head (filter (λ m, smiles m = s) (molecules st))
                  ≠ Some obj_id).

(** The shape every store built by the service has: ids and notations
    are keys, and the counter is ahead of every id in use. *)
Record well_formed (st : Store) : Prop := mkWellFormed {
  wf_ids : NoDup (molecule_id <$> molecules st);
  wf_smiles : NoDup (smiles <$> molecules st);
  wf_fresh : Forall (λ m, molecule_id m < next_id st) (molecules st)
}.

(** The calls a client can make. *)
Inductive Call :=
| CallSave (molecule_request : MoleculeRequest)
| CallUpdate (obj_id : Z) (molecule_request : MoleculeRequest)
| CallDelete (obj_id : Z)
| CallProcessCsvFile (lines : list (list string))
| CallFindById (obj_id : Z)
| CallFindAll (page page_size : Z)
| CallGetSubstructures (s : string)
| CallGetIsSubstructureOf (s : string).

Section reachability.
Context `{Chem}.

(** The store a call leaves behind, whether it returns or raises. *)
Definition run (c : Call) (st : Store) : Store :=
  match c with
  | CallSave r => final (MoleculeService.save r) st
  | CallUpdate i r => final (MoleculeService.update i r) st
  | CallDelete i => final (MoleculeService.delete i) st
  | CallProcessCsvFile lines => final (MoleculeService.process_csv_file lines) st
  | CallFindById i => final (MoleculeService.find_by_id i) st
  | CallFindAll p ps => final (MoleculeService.find_all p ps) st
  | CallGetSubstructures s => final (MoleculeService.get_substructures s) st
  | CallGetIsSubstructureOf s => final (MoleculeService.get_is_substructure_of s) st
  end.

Inductive reachable : Store → Prop :=
| reachable_empty : reachable empty_store
| reachable_run c st : reachable st → reachable (run c st).

(** Every stored notation parses. *)
Definition store_valid (st : Store) : Prop :=
  Forall (λ m, is_Some (MolFromSmiles (smiles m))) (molecules st).

Global Instance store_valid_dec st : Decision (store_valid st).
Proof. unfold store_valid. apply _. Defined.

(** The caller checked the notation before a create or an update, as
    the import does for each of its rows. *)
Definition checked_at_boundary (c : Call) : Prop :=
  match c with
  | CallSave r | CallUpdate _ r => is_Some (MolFromSmiles (req_smiles r))
  | _ => True
  end.

Inductive reachable_checked : Store → Prop :=
| reachable_checked_empty : reachable_checked empty_store
| reachable_checked_run c st :
    reachable_checked st → checked_at_boundary c → reachable_checked (run c st).

End reachability.

(** *** Containment between notations *)

Section containment.
Context `{Chem}.

(** [contains target pattern]: both notations parse and the handle of
    [target] has a substructure match for the handle of [pattern]. *)
Definition contains (target pattern : string) : bool :=
  match MolFromSmiles target, MolFromSmiles pattern with
  | Some t, Some p => HasSubstructMatch t p
  | _, _ => false
  end.

(** The records the claim on substructure search selects for a query:
    the stored one does not contain the query and the query contains
    the stored one. *)
Definition strictly_contained_records (query : string) (st : Store) : list Molecule :=
  filter (λ m, contains (smiles m) query = false ∧ contains query (smiles m) = true)
         (molecules st).

(** The records whose structure the query contains. *)
Definition contained_records (query : string) (st : Store) : list Molecule :=
  filter (λ m, contains query (smiles m) = true) (molecules st).

(** The records whose structure contains the query. *)
Definition container_records (query : string) (st : Store) : list Molecule :=
  filter (λ m, contains (smiles m) query = true) (molecules st).

End containment.

(** *** The import, in the words of the specification *)

Definition add_molecule (mol : Molecule) (st : Store) : Store :=
  {| molecules := molecules st ++ [mol]; next_id := next_id st + 1 |}.

(** The notation and the name a data row carries under the header. *)
Definition row_smiles (fieldnames row : list string) : option string :=
  mjoin (MoleculeService.dict_row fieldnames row !! "smiles").

Definition row_name (fieldnames row : list string) : option string :=
  mjoin (MoleculeService.dict_row fieldnames row !! "name").

Section import_spec.
Context `{Chem}.

(** The record a row creates: its notation must parse and must not be
    stored yet; any other row creates nothing. *)
Definition row_record (fieldnames row : list string) (st : Store) : option Molecule :=
  match row_smiles fieldnames row with
  | Some s =>
      if MoleculeService.is_valid_smiles s && negb (bool_decide (holds_smiles st s))
      then Some {| molecule_id := next_id st; smiles := s;
                   name := row_name fieldnames row; description := None |}
      else None
  | None => None
  end.

(** The records an import creates, row after row, each row seeing the
    store the rows before it left. *)
Fixpoint imported (fieldnames : list string) (rows : list (list string))
    (st : Store) : list Molecule :=
  match rows with
  | [] => []
  | row :: rest =>
      match row_record fieldnames row st with
      | Some mol => mol :: imported fieldnames rest (add_molecule mol st)
      | None => imported fieldnames rest st
      end
  end.

End import_spec.

(** ** [src/models.py]: requests, links and responses *)

Module Models.

Definition BASE_URL : string := "".

Record Link := mkLink { href : string; rel : string; type : string }.

Module AddMoleculeRequest.
Record t := mk {
  smiles : string;
  molecule_name : option string;
  description : option string
}.
End AddMoleculeRequest.

(** [MoleculeResponse(AddMoleculeRequest, HATEOASResponse)]. *)
Module MoleculeResponse.
Record t := mk {
  molecule_id : Z;
  smiles : string;
  molecule_name : option string;
  description : option string;
  links : gmap string Link
}.
End MoleculeResponse.

(** [MoleculeResponse.from_molecule]; the id enters the link the way an
    f-string formats an [int], in decimal. *)
Definition from_molecule (molecule : Molecule) : MoleculeResponse.t :=
  let links : gmap string Link :=
    {[ "self" :=
         {| href := BASE_URL +:+ "/molecules/" +:+ pretty (molecule_id molecule);
            rel := "self"; type := "GET" |};
       "substructure_search" :=
         {| href := BASE_URL +:+ "/molecules/substructure_search?smiles="
                    +:+ smiles molecule;
            rel := "substructure_search"; type := "GET" |} ]} in
  {| MoleculeResponse.molecule_id := molecule_id molecule;
     MoleculeResponse.smiles := smiles molecule;
     MoleculeResponse.molecule_name := name molecule;
     MoleculeResponse.description := description molecule;
     MoleculeResponse.links := links |}.

(** [Molecule.from_add_molecule_request]: the constructor, on the
    fields of the request. *)
Definition from_add_molecule_request (add_molecule_request : AddMoleculeRequest.t)
    : M Molecule :=
  Molecule_init (AddMoleculeRequest.smiles add_molecule_request)
                (AddMoleculeRequest.molecule_name add_molecule_request)
                (AddMoleculeRequest.description add_molecule_request).

(** One molecule built after the other, for a list of requests. *)
Fixpoint from_add_molecule_requests (requests : list AddMoleculeRequest.t)
    : M (list Molecule) :=
  match requests with
  | [] => ret []
  | r :: rest =>
      mol <~ from_add_molecule_request r ;;
      mols <~ from_add_molecule_requests rest ;;
      ret (mol :: mols)
  end.

End Models.

(** *** The import as a series of [save] calls *)

Section import_as_saves.
Context `{Chem}.

(** The request the import hands to [save] for a row, when the row
    carries a notation that parses. *)
Definition row_request (fieldnames row : list string) : option MoleculeRequest :=
  match row_smiles fieldnames row with
  | Some s =>
      if MoleculeService.is_valid_smiles s
      then Some {| req_smiles := s; req_name := row_name fieldnames row;
                   req_description := None |}
      else None
  | None => None
  end.

End import_as_saves.

(** ** Sample data *)

Definition aspirin : string := "O=C(C)Oc1ccccc1C(=O)O".

Definition aspirin_request : MoleculeRequest :=
  {| req_smiles := aspirin; req_name := Some "Aspirin"; req_description := None |}.

(** The store after [save(aspirin_request)] on the empty one. *)
Definition aspirin_store : Store :=
  final (MoleculeService.save aspirin_request) empty_store.

(** A pattern and a target: [CO] occurs in [CCO]. *)
Definition methanol : Molecule :=
  {| molecule_id := 1; smiles := "CO"; name := Some "methanol"; description := None |}.

Definition ethanol : Molecule :=
  {| molecule_id := 2; smiles := "CCO"; name := Some "ethanol"; description := None |}.

Definition alcohol_store : Store := {| molecules := [methanol; ethanol]; next_id := 3 |}.

Definition methanol_request : MoleculeRequest :=
  {| req_smiles := "CO"; req_name := Some "methanol"; req_description := None |}.

Definition ethanol_request : MoleculeRequest :=
  {| req_smiles := "CCO"; req_name := Some "ethanol"; req_description := None |}.

(** The rows of a file with a broken notation, a blank line, a
    repeated notation and a row without a name. *)
Definition sample_rows : list (list string) :=
  [["C C"; "broken"]; []; ["CCO"; "ethanol"]; ["CCO"; "again"]; ["CO"]].

(** A notation that is not SMILES, and the request that carries it. *)
Definition not_smiles_request : MoleculeRequest :=
  {| req_smiles := "not a molecule"; req_name := None; req_description := None |}.

(** The store after [save] of that request, of methanol and of ethanol,
    in this order, on the empty one. *)
Definition spoiled_methanol : Molecule :=
  {| molecule_id := 2; smiles := "CO"; name := Some "methanol"; description := None |}.

Definition spoiled_ethanol : Molecule :=
  {| molecule_id := 3; smiles := "CCO"; name := Some "ethanol"; description := None |}.

Definition spoiled_store : Store :=
  {| molecules := [{| molecule_id := 1; smiles := "not a molecule"; name := None;
                      description := None |};
                   spoiled_methanol; spoiled_ethanol];
     next_id := 4 |}.

(** * Properties *)

Import MoleculeService.

(** ** The repository lookups *)

Lemma find_id_None (l : list Molecule) obj_id :
  List.find (λ m, bool_decide (molecule_id m = obj_id)) l = None ↔
  ∀ m, m ∈ l → molecule_id m ≠ obj_id.
Proof.
  induction l as [|a l IH]; simpl.
  - split; [intros _ m Hm; inversion Hm | done].
  - case_bool_decide as Ha.
    + split; [done | intros Hall; exfalso; apply (Hall a); [left | done]].
    + rewrite IH. split.
      * intros Hall m Hm. apply elem_of_cons in Hm as [->|Hm]; auto.
      * intros Hall m Hm. apply Hall. by right.
Qed.

Lemma find_id_Some (l : list Molecule) obj_id m :
  List.find (λ m, bool_decide (molecule_id m = obj_id)) l = Some m →
  m ∈ l ∧ molecule_id m = obj_id.
Proof.
  induction l as [|a l IH]; simpl; [done|].
  case_bool_decide as Ha.
  - intros [= <-]. split; [left | done].
  - intros Hf. destruct (IH Hf). split; [by right | done].
Qed.

Lemma find_id_is_Some (l : list Molecule) obj_id :
  (∃ m, m ∈ l ∧ molecule_id m = obj_id) →
  ∃ m, List.find (λ m, bool_decide (molecule_id m = obj_id)) l = Some m.
Proof.
  intros (m & Hm & Hid).
  destruct (List.find _ l) as [m'|] eqn:Hf; [by exists m'|].
  exfalso. by apply (proj1 (find_id_None l obj_id) Hf m).
Qed.

Lemma exists_by_id_true st obj_id :
  has_id st obj_id → exists_by_id obj_id st = (Ok true, st).
Proof.
  intros Hid. apply Exists_exists in Hid.
  destruct (find_id_is_Some _ _ Hid) as [m Hm].
  unfold exists_by_id, bind, MoleculeRepository.find_by_id, ret.
  rewrite Hm. by rewrite bool_decide_true.
Qed.

Lemma exists_by_id_false st obj_id :
  ¬ has_id st obj_id → exists_by_id obj_id st = (Ok false, st).
Proof.
  intros Hid.
  assert (List.find (λ m, bool_decide (molecule_id m = obj_id)) (molecules st) = None) as Hf.
  { apply find_id_None. intros m Hm Heq. apply Hid, Exists_exists. by exists m. }
  unfold exists_by_id, bind, MoleculeRepository.find_by_id, ret.
  rewrite Hf. by rewrite bool_decide_false by (intros Hne; by apply Hne).
Qed.

Lemma has_id_delete st obj_id :
  ¬ has_id (final (MoleculeRepository.delete obj_id) st) obj_id.
Proof.
  intros (m & Hm & Hid)%Exists_exists.
  unfold final, MoleculeRepository.delete in Hm. simpl in Hm.
  apply list_elem_of_filter in Hm as [Hne _]. done.
Qed.

(** ** Unknown identifiers *)

(** C9: for an id that no record carries, [find_by_id], [update] and
    [delete] each raise [UnknownIdentifierException] with that id and
    leave the store as it was; [delete] succeeds on an id that is
    present, and once it has succeeded [find_by_id] on that id raises
    [UnknownIdentifierException]. *)
Theorem unknown_identifier st obj_id molecule_request :
  (¬ has_id st obj_id →
     find_by_id obj_id st = (Raise (UnknownIdentifierException obj_id), st) ∧
     update obj_id molecule_request st = (Raise (UnknownIdentifierException obj_id), st) ∧
     delete obj_id st = (Raise (UnknownIdentifierException obj_id), st)) ∧
  (has_id st obj_id → result (delete obj_id) st = Ok true) ∧
  (∀ b, result (delete obj_id) st = Ok b →
     result (find_by_id obj_id) (final (delete obj_id) st)
     = Raise (UnknownIdentifierException obj_id)).
Proof.
  split; [|split].
  - intros Hno. unfold find_by_id, update, delete, bind.
    rewrite (exists_by_id_false _ _ Hno). done.
  - intros Hid. unfold result, delete, bind.
    rewrite (exists_by_id_true _ _ Hid). simpl.
    by rewrite bool_decide_true.
  - intros b Hb. destruct (decide (has_id st obj_id)) as [Hid|Hno].
    + unfold final, result, delete, bind in *.
      rewrite (exists_by_id_true _ _ Hid) in *. simpl.
      pose proof (has_id_delete st obj_id) as Hgone.
      unfold final in Hgone. simpl in Hgone.
      unfold find_by_id, bind. by rewrite (exists_by_id_false _ _ Hgone).
    + unfold result, delete, bind in Hb.
      rewrite (exists_by_id_false _ _ Hno) in Hb. done.
Qed.

Lemma unknown_identifier_witness :
  (find_by_id 7 empty_store = (Raise (UnknownIdentifierException 7), empty_store) ∧
   update 7 aspirin_request empty_store
   = (Raise (UnknownIdentifierException 7), empty_store) ∧
   delete 7 empty_store = (Raise (UnknownIdentifierException 7), empty_store)) ∧
  result (delete 1) aspirin_store = Ok true ∧
  result (find_by_id 1) (final (delete 1) aspirin_store)
  = Raise (UnknownIdentifierException 1).
Proof.
  split; [|split].
  - apply (unknown_identifier empty_store 7 aspirin_request). compute_done.
  - apply (unknown_identifier aspirin_store 1 aspirin_request). compute_done.
  - apply (unknown_identifier aspirin_store 1 aspirin_request) with true.
    vm_compute. reflexivity.
Defined.

(** ** Queries leave the store alone *)

Section queries.
Context `{Chem}.

Lemma stored_handle_frame m st :
  stored_handle m st = (match to_chem m with
                        | Some c => Ok c
                        | None => Raise (RuntimeFault "HasSubstructMatch")
                        end, st).
Proof. unfold stored_handle. by destruct (to_chem m). Qed.

Lemma substructures_loop_frame mol found acc st :
  final (substructures_loop mol found acc) st = st.
Proof.
  revert acc. induction found as [|m found IH]; intros acc; [done|].
  unfold final in *. simpl. unfold bind. rewrite stored_handle_frame.
  destruct (to_chem m) as [c|]; [|done].
  destruct (HasSubstructMatch mol c); apply IH.
Qed.

Lemma is_substructure_of_loop_frame mol found acc st :
  final (is_substructure_of_loop mol found acc) st = st.
Proof.
  revert acc. induction found as [|m found IH]; intros acc; [done|].
  unfold final in *. simpl. unfold bind. rewrite stored_handle_frame.
  destruct (to_chem m) as [c|]; [|done].
  destruct (HasSubstructMatch c mol); apply IH.
Qed.

Lemma find_by_id_frame st obj_id : final (find_by_id obj_id) st = st.
Proof.
  unfold final, find_by_id, bind.
  destruct (decide (has_id st obj_id)) as [Hid|Hno].
  - rewrite (exists_by_id_true _ _ Hid). simpl.
    unfold MoleculeRepository.find_by_id.
    by destruct (List.find _ _).
  - by rewrite (exists_by_id_false _ _ Hno).
Qed.

Lemma get_substructures_frame st s : final (get_substructures s) st = st.
Proof.
  unfold final, get_substructures, bind,
    get_chem_molecule_from_smiles_or_raise_exception.
  destruct (MolFromSmiles s) as [mol|]; [|done]. simpl.
  apply substructures_loop_frame.
Qed.

Lemma get_is_substructure_of_frame st s : final (get_is_substructure_of s) st = st.
Proof.
  unfold final, get_is_substructure_of, bind,
    get_chem_molecule_from_smiles_or_raise_exception.
  destruct (MolFromSmiles s) as [mol|]; [|done]. simpl.
  apply is_substructure_of_loop_frame.
Qed.

(** C10: [find_by_id], [find_all], [get_substructures] and
    [get_is_substructure_of] end in the store they started from, for
    every store and every argument, whether they return or raise: the
    table (ids, notations, names, descriptions, in order) and the id
    counter are unchanged. *)
Theorem queries_preserve_store st obj_id page page_size s :
  final (find_by_id obj_id) st = st ∧
  final (find_all page page_size) st = st ∧
  final (get_substructures s) st = st ∧
  final (get_is_substructure_of s) st = st.
Proof.
  split; [|split; [|split]].
  - apply find_by_id_frame.
  - reflexivity.
  - apply get_substructures_frame.
  - apply get_is_substructure_of_frame.
Qed.

End queries.

(** ** Creating a molecule *)

Lemma filter_smiles_nil (l : list Molecule) s :
  filter (λ m, smiles m = s) l = [] ↔ ¬ Exists (λ m, smiles m = s) l.
Proof.
  rewrite Exists_exists. split.
  - intros Hnil (m & Hm & Hs).
    by apply (filter_nil_not_elem_of _ _ m Hnil Hs).
  - intros Hno. destruct (filter _ l) as [|m l'] eqn:Hf; [done|].
    exfalso. apply Hno. exists m.
    assert (m ∈ filter (λ m, smiles m = s) l) as Hin by (rewrite Hf; left).
    apply list_elem_of_filter in Hin as [? ?]. done.
Qed.

Lemma save_fresh st r :
  ¬ holds_smiles st (req_smiles r) →
  save r st =
  (Ok {| resp_molecule_id := next_id st; resp_smiles := req_smiles r;
         resp_name := req_name r; resp_description := req_description r |},
   {| molecules := molecules st ++
        [{| molecule_id := next_id st; smiles := req_smiles r;
            name := req_name r; description := req_description r |}];
      next_id := next_id st + 1 |}).
Proof.
  intros Hno. apply filter_smiles_nil in Hno.
  unfold save, bind, MoleculeRepository.filter. rewrite Hno. done.
Qed.

Lemma save_duplicate st r :
  holds_smiles st (req_smiles r) →
  save r st = (Raise (DuplicateSmilesException (req_smiles r)), st).
Proof.
  intros Hdup. unfold save, bind, MoleculeRepository.filter.
  destruct (filter _ (molecules st)) as [|m l] eqn:Hf.
  - apply filter_smiles_nil in Hf. done.
  - done.
Qed.

(** C6: [save] raises [DuplicateSmilesException] with the notation
    exactly when some stored record has a string-equal notation, and
    then the store is untouched; otherwise it appends the new record,
    with the next id and the fields of the request, and returns it.
    Whatever the first call did, a second [save] of the same notation
    raises [DuplicateSmilesException]. *)
Theorem save_duplicate_iff st molecule_request :
  let s := req_smiles molecule_request in
  let mol := {| molecule_id := next_id st; smiles := s;
                name := req_name molecule_request;
                description := req_description molecule_request |} in
  (result (save molecule_request) st = Raise (DuplicateSmilesException s)
   ↔ holds_smiles st s) ∧
  (holds_smiles st s →
   save molecule_request st = (Raise (DuplicateSmilesException s), st)) ∧
  (¬ holds_smiles st s →
   save molecule_request st =
   (Ok (to_response mol),
    {| molecules := molecules st ++ [mol]; next_id := next_id st + 1 |})) ∧
  (∀ again, req_smiles again = s →
   result (save again) (final (save molecule_request) st)
   = Raise (DuplicateSmilesException s)).
Proof.
  intros s mol. split; [split|split; [|split]].
  - intros Hr. destruct (decide (holds_smiles st s)) as [|Hno]; [done|].
    unfold result in Hr. by rewrite (save_fresh _ _ Hno) in Hr.
  - intros Hdup. unfold result. by rewrite (save_duplicate _ _ Hdup).
  - apply save_duplicate.
  - apply save_fresh.
  - intros again Heq. unfold result, final.
    destruct (decide (holds_smiles st s)) as [Hdup|Hno].
    + rewrite (save_duplicate _ _ Hdup). simpl.
      rewrite save_duplicate; rewrite Heq; done.
    + rewrite (save_fresh _ _ Hno). simpl.
      rewrite save_duplicate; rewrite Heq; [done|].
      unfold holds_smiles. simpl. apply Exists_app. right. by left.
Qed.

Lemma save_duplicate_iff_witness :
  save aspirin_request empty_store =
  (Ok {| resp_molecule_id := 1; resp_smiles := aspirin;
         resp_name := Some "Aspirin"; resp_description := None |},
   {| molecules := [{| molecule_id := 1; smiles := aspirin;
                       name := Some "Aspirin"; description := None |}];
      next_id := 2 |}) ∧
  save aspirin_request aspirin_store
  = (Raise (DuplicateSmilesException aspirin), aspirin_store) ∧
  result (save {| req_smiles := aspirin; req_name := None; req_description := None |})
         (final (save aspirin_request) empty_store)
  = Raise (DuplicateSmilesException aspirin).
Proof.
  split; [|split].
  - apply (save_duplicate_iff empty_store aspirin_request). compute_done.
  - apply (save_duplicate_iff aspirin_store aspirin_request). compute_done.
  - apply (save_duplicate_iff empty_store aspirin_request). reflexivity.
Defined.

(** ** The CSV import *)

Lemma foldl_insert_some_lookup (l : list (string * string))
    (d : gmap string (option string)) k :
  k ∈ l.*1 ∨ is_Some (d !! k) →
  is_Some (foldl (λ d kv, <[kv.1 := Some kv.2]> d) d l !! k).
Proof.
  revert d. induction l as [|[k' v] l IH]; intros d; simpl.
  - intros [Hin|Hd]; [by apply elem_of_nil in Hin | done].
  - intros [Hin|Hd]; apply IH.
    + apply elem_of_cons in Hin as [->|Hin]; [right | by left].
      rewrite lookup_insert_eq. by eexists.
    + right. destruct (decide (k' = k)) as [->|Hne].
      * rewrite lookup_insert_eq. by eexists.
      * by rewrite lookup_insert_ne.
Qed.

Lemma foldl_insert_none_lookup (l : list string)
    (d : gmap string (option string)) k :
  k ∈ l ∨ is_Some (d !! k) →
  is_Some (foldl (λ d key, <[key := None]> d) d l !! k).
Proof.
  revert d. induction l as [|k' l IH]; intros d; simpl.
  - intros [Hin|Hd]; [by apply elem_of_nil in Hin | done].
  - intros [Hin|Hd]; apply IH.
    + apply elem_of_cons in Hin as [->|Hin]; [right | by left].
      rewrite lookup_insert_eq. by eexists.
    + right. destruct (decide (k' = k)) as [->|Hne].
      * rewrite lookup_insert_eq. by eexists.
      * by rewrite lookup_insert_ne.
Qed.

Lemma zip_or_rest (fieldnames row : list string) k :
  k ∈ fieldnames →
  k ∈ (zip fieldnames row).*1 ∨ k ∈ drop (length row) fieldnames.
Proof.
  revert row. induction fieldnames as [|f fieldnames IH]; intros row Hin.
  - by apply elem_of_nil in Hin.
  - destruct row as [|r row]; simpl; [by right|].
    apply elem_of_cons in Hin as [->|Hin]; [left; left|].
    destruct (IH row Hin) as [?|?]; [left; by right | by right].
Qed.

(** Every name of the header is a key of every row. *)
Lemma dict_row_lookup fieldnames row k :
  k ∈ fieldnames → is_Some (dict_row fieldnames row !! k).
Proof.
  intros Hin. unfold dict_row. apply foldl_insert_none_lookup.
  destruct (zip_or_rest fieldnames row k Hin) as [Hz|Hd]; [right | by left].
  apply foldl_insert_some_lookup. by left.
Qed.

Lemma foldl_insert_none_blank (l : list string)
    (d : gmap string (option string)) k :
  mjoin (d !! k) = None →
  mjoin (foldl (λ d key, <[key := None]> d) d l !! k) = None.
Proof.
  revert d. induction l as [|k' l IH]; intros d Hd; simpl; [done|].
  apply IH. destruct (decide (k' = k)) as [->|Hne].
  - by rewrite lookup_insert_eq.
  - by rewrite lookup_insert_ne.
Qed.

(** A blank row carries no notation. *)
Lemma row_smiles_blank fieldnames : row_smiles fieldnames [] = None.
Proof.
  unfold row_smiles, dict_row. rewrite zip_with_nil_r. simpl.
  by apply foldl_insert_none_blank.
Qed.

Lemma row_smiles_pair s n : row_smiles ["smiles"; "name"] [s; n] = Some s.
Proof. reflexivity. Qed.

Lemma row_name_pair s n : row_name ["smiles"; "name"] [s; n] = Some n.
Proof. reflexivity. Qed.

Section import.
Context `{Chem}.

Lemma is_valid_smiles_true s :
  is_valid_smiles s = true ↔ is_Some (MolFromSmiles s).
Proof. unfold is_valid_smiles. apply bool_decide_eq_true. Qed.

(** One row: either the record of the specification is appended, or
    the row raises and the store is as before. *)
Lemma process_row_spec fieldnames row st :
  "smiles" ∈ fieldnames → "name" ∈ fieldnames →
  match row_record fieldnames row st with
  | Some mol =>
      process_row (dict_row fieldnames row) st
      = (Ok (to_response mol), add_molecule mol st)
  | None => ∃ e, process_row (dict_row fieldnames row) st = (Raise e, st)
  end.
Proof.
  intros Hs Hn.
  destruct (dict_row_lookup fieldnames row _ Hs) as [vs Hvs].
  destruct (dict_row_lookup fieldnames row _ Hn) as [vn Hvn].
  unfold row_record, row_smiles, row_name, process_row, getitem, bind.
  rewrite Hvs, Hvn. simpl.
  destruct vs as [s|]; simpl; [|by eexists].
  destruct (is_valid_smiles s); simpl; [|by eexists].
  case_bool_decide as Hheld; simpl.
  - eexists. by apply (save_duplicate st (mkRequest s vn None)).
  - by rewrite (save_fresh st (mkRequest s vn None)).
Qed.

(** The loop never raises: it ends with the count raised by the number
    of records created and with those records appended. *)
Lemma rows_loop_spec fieldnames rows n st :
  "smiles" ∈ fieldnames → "name" ∈ fieldnames →
  rows_loop fieldnames rows n st
  = (Ok (n + Z.of_nat (length (imported fieldnames rows st))),
     {| molecules := molecules st ++ imported fieldnames rows st;
        next_id := next_id st + Z.of_nat (length (imported fieldnames rows st)) |}).
Proof.
  intros Hs Hn. revert n st.
  induction rows as [|row rows IH]; intros n st.
  - simpl. unfold ret. rewrite app_nil_r, !Z.add_0_r. by destruct st.
  - destruct row as [|f row].
    + simpl. unfold row_record. rewrite row_smiles_blank. apply IH.
    + change (rows_loop fieldnames ((f :: row) :: rows) n st)
        with ((k <~ try_except
                       (process_row (dict_row fieldnames (f :: row)) ;;;
                        ret (n + 1))
                       (λ e, ret n) ;;
               rows_loop fieldnames rows k) st).
      pose proof (process_row_spec fieldnames (f :: row) st Hs Hn) as Hrow.
      unfold bind, try_except. simpl.
      destruct (row_record fieldnames (f :: row) st) as [mol|].
      * unfold bind in Hrow |- *. rewrite Hrow. simpl. rewrite IH. simpl.
        f_equal; [f_equal; lia|].
        rewrite <- app_assoc. simpl. f_equal. lia.
      * destruct Hrow as [e He]. unfold bind. rewrite He. simpl. apply IH.
Qed.

Lemma validate_header_ok fieldnames st :
  "smiles" ∈ fieldnames → "name" ∈ fieldnames →
  validate_csv_header_columns (list_to_set fieldnames) st = (Ok tt, st).
Proof.
  intros Hs Hn. unfold validate_csv_header_columns.
  rewrite bool_decide_false; [done|].
  intros Hne. apply Hne. unfold required_columns.
  apply set_eq. intros c. rewrite elem_of_difference, elem_of_list_to_set.
  split.
  - intros [Hc Hnot]. exfalso.
    apply elem_of_union in Hc as [Hc|Hc]; apply elem_of_singleton in Hc;
      subst c; done.
  - intros Hc. by apply not_elem_of_empty in Hc.
Qed.

Lemma process_csv_file_header_ok fieldnames rows st :
  "smiles" ∈ fieldnames → "name" ∈ fieldnames →
  process_csv_file (fieldnames :: rows) st
  = (Ok (Z.of_nat (length (imported fieldnames rows st))),
     {| molecules := molecules st ++ imported fieldnames rows st;
        next_id := next_id st + Z.of_nat (length (imported fieldnames rows st)) |}).
Proof.
  intros Hs Hn. unfold process_csv_file, bind.
  rewrite (validate_header_ok _ _ Hs Hn).
  by rewrite (rows_loop_spec _ _ _ _ Hs Hn).
Qed.

Lemma process_csv_file_header_missing fieldnames rows st :
  "smiles" ∉ fieldnames ∨ "name" ∉ fieldnames →
  process_csv_file (fieldnames :: rows) st
  = (Raise (InvalidCsvHeaderColumnsException
              (required_columns ∖ list_to_set fieldnames)), st)
  ∧ required_columns ∖ list_to_set fieldnames ≠ ∅
  ∧ (∀ c, c ∈ required_columns ∖ list_to_set fieldnames
          ↔ (c = "smiles" ∨ c = "name") ∧ c ∉ fieldnames).
Proof.
  intros Hmiss. set (missing_columns := required_columns ∖ list_to_set fieldnames).
  assert (∀ c, c ∈ missing_columns ↔ (c = "smiles" ∨ c = "name") ∧ c ∉ fieldnames)
    as Hchar.
  { intros c. unfold missing_columns, required_columns.
    rewrite elem_of_difference, elem_of_list_to_set. set_solver. }
  assert (missing_columns ≠ ∅) as Hne.
  { intros Hempty. destruct Hmiss as [Hm|Hm].
    - assert ("smiles" ∈ missing_columns) as Hin by (apply Hchar; auto).
      rewrite Hempty in Hin. set_solver.
    - assert ("name" ∈ missing_columns) as Hin by (apply Hchar; auto).
      rewrite Hempty in Hin. set_solver. }
  split; [|done].
  unfold process_csv_file, bind, validate_csv_header_columns.
  fold missing_columns. by rewrite bool_decide_true.
Qed.

(** C4: when the header carries both required columns the import never
    raises: it goes through every data row, a row whose notation is
    missing or does not parse, or whose notation is already stored,
    creates nothing and the rows after it are still processed, and the
    call returns the number of records created, which are exactly the
    records appended to the store.  In particular, under the header
    [smiles,name], a row with an unparsable notation and a row with a
    parsable notation that is not stored yet, in either order, return 1
    and append one record. *)
Theorem process_csv_file_counts fieldnames rows st :
  "smiles" ∈ fieldnames → "name" ∈ fieldnames →
  process_csv_file (fieldnames :: rows) st
  = (Ok (Z.of_nat (length (imported fieldnames rows st))),
     {| molecules := molecules st ++ imported fieldnames rows st;
        next_id := next_id st + Z.of_nat (length (imported fieldnames rows st)) |})
  ∧ (∀ bad bad_name good good_name,
       MolFromSmiles bad = None → is_Some (MolFromSmiles good) →
       ¬ holds_smiles st good →
       let mol := {| molecule_id := next_id st; smiles := good;
                     name := Some good_name; description := None |} in
       process_csv_file [["smiles"; "name"]; [bad; bad_name]; [good; good_name]] st
       = (Ok 1, add_molecule mol st) ∧
       process_csv_file [["smiles"; "name"]; [good; good_name]; [bad; bad_name]] st
       = (Ok 1, add_molecule mol st)).
Proof.
  intros Hs Hn. split.
  - by apply process_csv_file_header_ok.
  - intros bad bad_name good good_name Hbad Hgood Hfresh mol.
    assert ("smiles" ∈ ["smiles"; "name"]) as Hs' by (by left).
    assert ("name" ∈ ["smiles"; "name"]) as Hn' by (right; by left).
    assert (is_valid_smiles bad = false) as Hinvalid.
    { apply not_true_is_false. rewrite is_valid_smiles_true, Hbad.
      by intros [? ?]. }
    assert (is_valid_smiles good = true) as Hvalid
      by (by apply is_valid_smiles_true).
    assert (row_record ["smiles"; "name"] [good; good_name] st = Some mol) as Hrg.
    { unfold row_record. rewrite row_smiles_pair, row_name_pair, Hvalid.
      by rewrite bool_decide_false. }
    assert (∀ st', row_record ["smiles"; "name"] [bad; bad_name] st' = None) as Hrb'.
    { intros st'. unfold row_record. by rewrite row_smiles_pair, Hinvalid. }
    split; unfold process_csv_file, bind;
      rewrite (validate_header_ok _ _ Hs' Hn');
      rewrite (rows_loop_spec _ _ _ _ Hs' Hn'); simpl.
    + by rewrite Hrb', Hrg.
    + by rewrite Hrg, Hrb'.
Qed.

(** C5: when the header lacks a required column, whatever the order of
    its names, the import raises [InvalidCsvHeaderColumnsException]
    with exactly the required columns that are missing, whatever the
    data rows are, and the store is the one it started from. *)
Theorem process_csv_file_invalid_header fieldnames rows st :
  "smiles" ∉ fieldnames ∨ "name" ∉ fieldnames →
  let missing_columns := required_columns ∖ list_to_set fieldnames in
  process_csv_file (fieldnames :: rows) st
  = (Raise (InvalidCsvHeaderColumnsException missing_columns), st)
  ∧ missing_columns ≠ ∅
  ∧ (∀ c, c ∈ missing_columns ↔ (c = "smiles" ∨ c = "name") ∧ c ∉ fieldnames).
Proof.
  intros Hmiss missing_columns. by apply process_csv_file_header_missing.
Qed.

End import.

Lemma process_csv_file_counts_witness :
  @process_csv_file ToyChem.chem
    [["smiles"; "name"]; ["C C"; "broken"]; ["CCO"; "ethanol"]] empty_store
  = (Ok 1, add_molecule {| molecule_id := 1; smiles := "CCO";
                           name := Some "ethanol"; description := None |}
                        empty_store).
Proof.
  apply (@process_csv_file_counts ToyChem.chem ["smiles"; "name"] [] empty_store).
  - by left.
  - right. by left.
  - reflexivity.
  - by exists "CCO"%string.
  - compute_done.
Defined.

Lemma process_csv_file_invalid_header_witness :
  @process_csv_file ToyChem.chem [["smiles"]; ["CCO"]] aspirin_store
  = (Raise (InvalidCsvHeaderColumnsException {[ "name" ]}), aspirin_store).
Proof.
  apply (@process_csv_file_invalid_header ToyChem.chem ["smiles"] [["CCO"]] aspirin_store).
  right. compute_done.
Defined.

(** ** Substructure search *)

Section search.
Context `{Chem}.

Lemma contains_handles target pattern t p :
  MolFromSmiles target = Some t → MolFromSmiles pattern = Some p →
  contains target pattern = HasSubstructMatch t p.
Proof. intros Ht Hp. unfold contains. by rewrite Ht, Hp. Qed.

Lemma substructures_loop_spec s mol found acc st :
  MolFromSmiles s = Some mol →
  Forall (λ m, is_Some (MolFromSmiles (smiles m))) found →
  substructures_loop mol found acc st
  = (Ok (acc ++ (to_response <$> filter (λ m, contains s (smiles m) = true) found)), st).
Proof.
  intros Hs Hvalid. revert acc.
  induction Hvalid as [|m found [c Hc] _ IH]; intros acc.
  - simpl. unfold ret. by rewrite app_nil_r.
  - simpl. unfold bind. rewrite stored_handle_frame. unfold to_chem. rewrite Hc.
    rewrite filter_cons, (contains_handles s (smiles m) mol c Hs Hc).
    destruct (HasSubstructMatch mol c); rewrite IH.
    + rewrite decide_True by done. rewrite fmap_cons.
      by rewrite <- app_assoc.
    + by rewrite decide_False by done.
Qed.

Lemma is_substructure_of_loop_spec s mol found acc st :
  MolFromSmiles s = Some mol →
  Forall (λ m, is_Some (MolFromSmiles (smiles m))) found →
  is_substructure_of_loop mol found acc st
  = (Ok (acc ++ (to_response <$> filter (λ m, contains (smiles m) s = true) found)), st).
Proof.
  intros Hs Hvalid. revert acc.
  induction Hvalid as [|m found [c Hc] _ IH]; intros acc.
  - simpl. unfold ret. by rewrite app_nil_r.
  - simpl. unfold bind. rewrite stored_handle_frame. unfold to_chem. rewrite Hc.
    rewrite filter_cons, (contains_handles (smiles m) s c mol Hc Hs).
    destruct (HasSubstructMatch c mol); rewrite IH.
    + rewrite decide_True by done. rewrite fmap_cons.
      by rewrite <- app_assoc.
    + by rewrite decide_False by done.
Qed.

Lemma get_substructures_valid s st :
  is_Some (MolFromSmiles s) → store_valid st →
  get_substructures s st = (Ok (to_response <$> contained_records s st), st).
Proof.
  intros [mol Hs] Hvalid.
  unfold get_substructures, bind, get_chem_molecule_from_smiles_or_raise_exception.
  rewrite Hs. simpl. by rewrite (substructures_loop_spec s).
Qed.

Lemma get_is_substructure_of_valid s st :
  is_Some (MolFromSmiles s) → store_valid st →
  get_is_substructure_of s st = (Ok (to_response <$> container_records s st), st).
Proof.
  intros [mol Hs] Hvalid.
  unfold get_is_substructure_of, bind, get_chem_molecule_from_smiles_or_raise_exception.
  rewrite Hs. simpl. by rewrite (is_substructure_of_loop_spec s).
Qed.

Lemma get_substructures_invalid s st :
  MolFromSmiles s = None →
  get_substructures s st = (Raise (InvalidSmilesException s), st).
Proof.
  intros Hs.
  unfold get_substructures, bind, get_chem_molecule_from_smiles_or_raise_exception.
  by rewrite Hs.
Qed.

Lemma contains_parses target pattern :
  contains target pattern = true →
  is_Some (MolFromSmiles target) ∧ is_Some (MolFromSmiles pattern).
Proof.
  unfold contains.
  destruct (MolFromSmiles target), (MolFromSmiles pattern); done.
Qed.

(** C1 (as amended): a query the validator rejects makes
    [get_substructures] raise [InvalidSmilesException] with that query;
    a query it accepts, on a store whose notations all parse, returns
    exactly the records whose structure the query contains, over the
    whole table and in insertion order, whether or not the record
    contains the query in turn. *)
Theorem get_substructures_spec s st :
  (MolFromSmiles s = None →
     get_substructures s st = (Raise (InvalidSmilesException s), st)) ∧
  (is_Some (MolFromSmiles s) → store_valid st →
     get_substructures s st = (Ok (to_response <$> contained_records s st), st) ∧
     ∀ m, to_response m ∈ (to_response <$> contained_records s st)
          ↔ m ∈ molecules st ∧ contains s (smiles m) = true).
Proof.
  split; [apply get_substructures_invalid|].
  intros Hs Hvalid. split; [by apply get_substructures_valid|].
  intros m. rewrite (list_elem_of_fmap_inj to_response).
  unfold contained_records. rewrite list_elem_of_filter. tauto.
Qed.

(** C8 (as amended): in a store whose notations all parse, with a record for a
    pattern P and a record for a target T where T contains P and P does
    not contain T: [get_substructures] on T returns the record of P,
    [get_is_substructure_of] on P returns the record of T, and
    [get_substructures] on P does not return the record of T. *)
Theorem containment_asymmetry st rP rT :
  store_valid st → rP ∈ molecules st → rT ∈ molecules st →
  contains (smiles rT) (smiles rP) = true →
  contains (smiles rP) (smiles rT) = false →
  (∃ found, get_substructures (smiles rT) st = (Ok found, st)
            ∧ to_response rP ∈ found) ∧
  (∃ found, get_is_substructure_of (smiles rP) st = (Ok found, st)
            ∧ to_response rT ∈ found) ∧
  (∃ found, get_substructures (smiles rP) st = (Ok found, st)
            ∧ to_response rT ∉ found).
Proof.
  intros Hvalid HP HT Hin Hout.
  destruct (contains_parses _ _ Hin) as [HTp HPp].
  split; [|split]; eexists; (split; [by apply get_substructures_valid
                                    || by apply get_is_substructure_of_valid|]).
  - apply list_elem_of_fmap_2, list_elem_of_filter. done.
  - apply list_elem_of_fmap_2, list_elem_of_filter. done.
  - rewrite (list_elem_of_fmap_inj to_response).
    intros [Hc _]%list_elem_of_filter. congruence.
Qed.

End search.

Lemma get_substructures_spec_witness :
  @get_substructures ToyChem.chem "not a molecule" alcohol_store
  = (Raise (InvalidSmilesException "not a molecule"), alcohol_store) ∧
  @get_substructures ToyChem.chem "CCO" alcohol_store
  = (Ok (to_response <$> @contained_records ToyChem.chem "CCO" alcohol_store),
     alcohol_store).
Proof.
  split.
  - apply (@get_substructures_spec ToyChem.chem "not a molecule" alcohol_store).
    reflexivity.
  - apply (@get_substructures_spec ToyChem.chem "CCO" alcohol_store).
    + by exists "CCO"%string.
    + compute_done.
Defined.

(** The claim C1 as stated fails where a stored structure and the query
    contain each other: the query [aspirin] on the store holding
    [aspirin] returns that record, which the stated selection leaves
    out. *)
Lemma get_substructures_returns_mutual_match :
  result (@get_substructures ToyChem.chem aspirin) aspirin_store
  = Ok [{| resp_molecule_id := 1; resp_smiles := aspirin;
           resp_name := Some "Aspirin"; resp_description := None |}] ∧
  to_response <$> @strictly_contained_records ToyChem.chem aspirin aspirin_store = [] ∧
  result (@get_substructures ToyChem.chem aspirin) aspirin_store
  ≠ Ok (to_response <$> @strictly_contained_records ToyChem.chem aspirin aspirin_store).
Proof.
  split; [|split].
  - vm_compute. reflexivity.
  - vm_compute. reflexivity.
  - vm_compute. intros Heq. discriminate Heq.
Qed.

Lemma containment_asymmetry_witness :
  (∃ found, @get_substructures ToyChem.chem "CCO" alcohol_store = (Ok found, alcohol_store)
            ∧ to_response methanol ∈ found) ∧
  (∃ found, @get_is_substructure_of ToyChem.chem "CO" alcohol_store
            = (Ok found, alcohol_store)
            ∧ to_response ethanol ∈ found) ∧
  (∃ found, @get_substructures ToyChem.chem "CO" alcohol_store = (Ok found, alcohol_store)
            ∧ to_response ethanol ∉ found).
Proof.
  apply (@containment_asymmetry ToyChem.chem alcohol_store methanol ethanol).
  - compute_done.
  - by left.
  - right. by left.
  - reflexivity.
  - reflexivity.
Defined.

Lemma spoiled_store_reachable : @reachable ToyChem.chem spoiled_store.
Proof.
  apply (@reachable_run ToyChem.chem (CallSave ethanol_request)
           (@run ToyChem.chem (CallSave methanol_request)
              (@run ToyChem.chem (CallSave not_smiles_request) empty_store))).
  apply (@reachable_run ToyChem.chem (CallSave methanol_request)
           (@run ToyChem.chem (CallSave not_smiles_request) empty_store)).
  apply (@reachable_run ToyChem.chem (CallSave not_smiles_request) empty_store).
  apply reachable_empty.
Qed.

(** The claim C8 as stated fails on a store that also holds a notation
    that does not parse: with a record for the pattern [CO] and one for
    the target [CCO], the target containing the pattern and not the
    other way round, both searches raise and return neither record. *)
Lemma containment_asymmetry_fails_on_spoiled_store :
  @reachable ToyChem.chem spoiled_store
  ∧ spoiled_methanol ∈ molecules spoiled_store
  ∧ spoiled_ethanol ∈ molecules spoiled_store
  ∧ @contains ToyChem.chem (smiles spoiled_ethanol) (smiles spoiled_methanol) = true
  ∧ @contains ToyChem.chem (smiles spoiled_methanol) (smiles spoiled_ethanol) = false
  ∧ @get_substructures ToyChem.chem (smiles spoiled_ethanol) spoiled_store
    = (Raise (RuntimeFault "HasSubstructMatch"), spoiled_store)
  ∧ @get_is_substructure_of ToyChem.chem (smiles spoiled_methanol) spoiled_store
    = (Raise (RuntimeFault "HasSubstructMatch"), spoiled_store)
  ∧ ¬ (∃ found, @get_substructures ToyChem.chem (smiles spoiled_ethanol) spoiled_store
                = (Ok found, spoiled_store)
                ∧ to_response spoiled_methanol ∈ found).
Proof.
  split; [exact spoiled_store_reachable|].
  split; [right; by left|].
  split; [right; right; by left|].
  split; [reflexivity|]. split; [reflexivity|].
  split; [reflexivity|]. split; [reflexivity|].
  intros (found & Hfound & _). discriminate Hfound.
Qed.

(** ** The aspirin example *)

(** C3: on the empty store [save] of the aspirin notation with the
    name Aspirin succeeds and returns the record with id 1, the first
    id the store assigns; a structure containing itself, that is, the
    notation parsing and its handle matching itself, a following
    [get_substructures] with the same notation returns that record. *)
Theorem aspirin_example `{Chem} :
  contains aspirin aspirin = true →
  ∃ r, save aspirin_request empty_store = (Ok r, aspirin_store)
       ∧ resp_molecule_id r = 1
       ∧ resp_smiles r = aspirin
       ∧ resp_name r = Some "Aspirin"%string
       ∧ get_substructures aspirin aspirin_store = (Ok [r], aspirin_store).
Proof.
  intros Hself. destruct (contains_parses _ _ Hself) as [Hparse _].
  eexists. split; [reflexivity|]. repeat (split; [reflexivity|]).
  rewrite get_substructures_valid; [|done|].
  - unfold contained_records. simpl. rewrite filter_cons, decide_True by done.
    done.
  - unfold store_valid. simpl. by repeat constructor.
Qed.

Lemma aspirin_example_witness :
  ∃ r, save aspirin_request empty_store = (Ok r, aspirin_store)
       ∧ resp_molecule_id r = 1
       ∧ resp_smiles r = aspirin
       ∧ resp_name r = Some "Aspirin"%string
       ∧ @get_substructures ToyChem.chem aspirin aspirin_store = (Ok [r], aspirin_store).
Proof. apply (@aspirin_example ToyChem.chem). reflexivity. Defined.

(** ** The shape of the stores the service builds *)

Lemma well_formed_empty : well_formed empty_store.
Proof. split; simpl; constructor. Qed.

Lemma well_formed_add st mol :
  well_formed st → molecule_id mol = next_id st →
  ¬ holds_smiles st (smiles mol) → well_formed (add_molecule mol st).
Proof.
  intros [Hids Hsmiles Hfresh] Hid Hnew. split; simpl.
  - rewrite fmap_app. apply NoDup_app. split; [done|]. split.
    + intros i Hi Hin. apply list_elem_of_fmap in Hi as (m & -> & Hm).
      apply list_elem_of_singleton in Hin.
      rewrite Forall_forall in Hfresh. specialize (Hfresh m Hm). simpl in Hfresh. lia.
    + apply NoDup_singleton.
  - rewrite fmap_app. apply NoDup_app. split; [done|]. split.
    + intros s Hs Hin. apply list_elem_of_fmap in Hs as (m & -> & Hm).
      apply list_elem_of_singleton in Hin.
      apply Hnew, Exists_exists. by exists m.
    + apply NoDup_singleton.
  - apply Forall_app. split.
    + eapply Forall_impl; [done|]. intros m Hm. simpl in *. lia.
    + constructor; [|constructor]. lia.
Qed.

Lemma NoDup_fmap_filter {A B} (f : A → B) (P : A → Prop) `{!∀ x, Decision (P x)}
    (l : list A) :
  NoDup (f <$> l) → NoDup (f <$> filter P l).
Proof.
  induction l as [|a l IH]; [done|].
  rewrite fmap_cons, NoDup_cons. intros [Hnot Hdup].
  rewrite filter_cons. destruct (decide (P a)); [|by apply IH].
  rewrite fmap_cons. apply NoDup_cons. split; [|by apply IH].
  intros (m & Heq & Hm)%list_elem_of_fmap. apply Hnot.
  apply list_elem_of_filter in Hm as [_ Hm].
  rewrite Heq. by apply list_elem_of_fmap_2.
Qed.

Lemma well_formed_delete st obj_id :
  well_formed st → well_formed (final (MoleculeRepository.delete obj_id) st).
Proof.
  intros [Hids Hsmiles Hfresh]. split; unfold final; simpl.
  - by apply NoDup_fmap_filter.
  - by apply NoDup_fmap_filter.
  - apply Forall_forall. intros m [_ Hm]%list_elem_of_filter.
    rewrite Forall_forall in Hfresh. by apply Hfresh.
Qed.

(** A notation that is a key is held by one record at most. *)
Lemma same_smiles_head (l : list Molecule) s first :
  NoDup (smiles <$> l) →
  head (filter (λ m, smiles m = s) l) = Some first →
  ∀ m, m ∈ l → smiles m = s → m = first.
Proof.
  induction l as [|a l IH]; [done|].
  rewrite fmap_cons, NoDup_cons. intros [Hnot Hdup].
  rewrite filter_cons. destruct (decide (smiles a = s)) as [Ha|Ha]; simpl.
  - intros [= <-] m Hm Hs. apply elem_of_cons in Hm as [->|Hm]; [done|].
    exfalso. apply Hnot. rewrite Ha, <- Hs. by apply list_elem_of_fmap_2.
  - intros Hhead m Hm Hs. apply elem_of_cons in Hm as [->|Hm]; [done|].
    by apply IH.
Qed.

Lemma update_ids (l : list Molecule) obj_id data :
  molecule_id <$> ((λ m, if bool_decide (molecule_id m = obj_id)
                         then MoleculeRepository.replace_fields data m else m) <$> l)
  = molecule_id <$> l.
Proof.
  rewrite <- list_fmap_compose. apply list_fmap_ext. intros i m _. simpl.
  by case_bool_decide.
Qed.

Lemma update_smiles_NoDup (l : list Molecule) obj_id data :
  NoDup (molecule_id <$> l) → NoDup (smiles <$> l) →
  (∀ m, m ∈ l → smiles m = req_smiles data → molecule_id m = obj_id) →
  NoDup (smiles <$> ((λ m, if bool_decide (molecule_id m = obj_id)
                           then MoleculeRepository.replace_fields data m else m) <$> l)).
Proof.
  induction l as [|a l IH]; [constructor|].
  rewrite !fmap_cons, !NoDup_cons.
  intros [Hid_a Hids] [Hs_a Hsmiles] Hown.
  assert (∀ m, m ∈ l → smiles m = req_smiles data → molecule_id m = obj_id) as Hown'
    by (intros m Hm; apply Hown; by right).
  split; [|by apply IH].
  intros (m' & Heq & Hm')%list_elem_of_fmap.
  apply list_elem_of_fmap in Hm' as (m & -> & Hm).
  case_bool_decide as Ha; case_bool_decide as Hmid; simpl in Heq.
  - apply Hid_a. rewrite Ha, <- Hmid. by apply list_elem_of_fmap_2.
  - apply Hid_a. rewrite Ha.
    rewrite <- (Hown' m Hm) by done. by apply list_elem_of_fmap_2.
  - apply Ha. apply Hown; [by left | done].
  - apply Hs_a. rewrite Heq. by apply list_elem_of_fmap_2.
Qed.

Lemma well_formed_update st obj_id data :
  well_formed st →
  (∀ m, m ∈ molecules st → smiles m = req_smiles data → molecule_id m = obj_id) →
  well_formed (final (MoleculeRepository.update obj_id data) st).
Proof.
  intros [Hids Hsmiles Hfresh] Hown. split; unfold final; simpl.
  - by rewrite update_ids.
  - by apply update_smiles_NoDup.
  - apply Forall_fmap. eapply Forall_impl; [done|].
    intros m Hm. simpl. by case_bool_decide.
Qed.

(** ** Updating a molecule *)

Lemma update_present st obj_id data :
  has_id st obj_id →
  update obj_id data st
  = if update_guard st obj_id (req_smiles data)
    then (Raise (DuplicateSmilesException (req_smiles data)), st)
    else (mol <~ MoleculeRepository.update obj_id data ;; to_response_or_fault mol) st.
Proof.
  intros Hid. unfold update, bind at 1. rewrite (exists_by_id_true _ _ Hid). simpl.
  unfold bind at 1, MoleculeRepository.filter, update_guard.
  by destruct (_ && _).
Qed.

Lemma update_guard_held st obj_id s :
  update_guard st obj_id s = true → held_by_other st obj_id s.
Proof.
  unfold update_guard. intros [Hlen Hhead]%andb_prop.
  apply bool_decide_eq_true in Hhead.
  destruct (filter _ (molecules st)) as [|first same] eqn:Hf; [done|].
  assert (first ∈ filter (λ m, smiles m = s) (molecules st)) as Hin
    by (rewrite Hf; left).
  apply list_elem_of_filter in Hin as [Hs Hin].
  apply Exists_exists. exists first. simpl in Hhead.
  split; [done|]. split; [done|]. congruence.
Qed.

Lemma held_update_guard st obj_id s :
  NoDup (smiles <$> molecules st) →
  held_by_other st obj_id s → update_guard st obj_id s = true.
Proof.
  intros Hdup (m & Hm & Hs & Hne)%Exists_exists. unfold update_guard.
  assert (m ∈ filter (λ m, smiles m = s) (molecules st)) as Hin
    by (by apply list_elem_of_filter).
  destruct (filter _ (molecules st)) as [|first same] eqn:Hf.
  - by apply elem_of_nil in Hin.
  - assert (m = first) as <-.
    { apply (same_smiles_head (molecules st) s); [done| by rewrite Hf |done..]. }
    apply andb_true_intro. split; apply bool_decide_eq_true; simpl.
    + lia.
    + congruence.
Qed.

Lemma find_replace (l : list Molecule) obj_id data :
  List.find (λ m, bool_decide (molecule_id m = obj_id))
            ((λ m, if bool_decide (molecule_id m = obj_id)
                   then MoleculeRepository.replace_fields data m else m) <$> l)
  = MoleculeRepository.replace_fields data
      <$> List.find (λ m, bool_decide (molecule_id m = obj_id)) l.
Proof.
  induction l as [|a l IH]; [done|]. rewrite fmap_cons. simpl.
  destruct (decide (molecule_id a = obj_id)) as [Ha|Ha].
  - rewrite !(bool_decide_true (molecule_id a = obj_id)) by done. simpl.
    by rewrite ?bool_decide_true by done.
  - rewrite !(bool_decide_false (molecule_id a = obj_id)) by done.
    by rewrite ?bool_decide_false by done.
Qed.

(** The store an accepted update leaves, and what it returns. *)
Lemma update_accepted st obj_id data :
  has_id st obj_id → update_guard st obj_id (req_smiles data) = false →
  update obj_id data st
  = (Ok {| resp_molecule_id := obj_id; resp_smiles := req_smiles data;
           resp_name := req_name data; resp_description := req_description data |},
     final (MoleculeRepository.update obj_id data) st).
Proof.
  intros Hid Hguard. rewrite (update_present _ _ _ Hid), Hguard.
  unfold bind, final, MoleculeRepository.update. simpl.
  rewrite find_replace.
  apply Exists_exists in Hid. destruct (find_id_is_Some _ _ Hid) as [m0 Hm0].
  rewrite Hm0. simpl. destruct (find_id_Some _ _ _ Hm0) as [_ Hid0].
  unfold ret, to_response. simpl. by rewrite Hid0.
Qed.

Lemma well_formed_save st r : well_formed st → well_formed (final (save r) st).
Proof.
  intros Hwf. unfold final.
  destruct (decide (holds_smiles st (req_smiles r))) as [Hdup|Hnew].
  - by rewrite (save_duplicate _ _ Hdup).
  - rewrite (save_fresh _ _ Hnew). simpl.
    by apply (well_formed_add st (mkMolecule (next_id st) (req_smiles r)
                                             (req_name r) (req_description r))).
Qed.

Lemma well_formed_service_update st obj_id r :
  well_formed st → well_formed (final (update obj_id r) st).
Proof.
  intros Hwf. unfold final.
  destruct (decide (has_id st obj_id)) as [Hid|Hno].
  - destruct (update_guard st obj_id (req_smiles r)) eqn:Hguard.
    + by rewrite (update_present _ _ _ Hid), Hguard.
    + rewrite (update_accepted _ _ _ Hid Hguard). simpl.
      apply well_formed_update; [done|].
      intros m Hm Hs. destruct (decide (molecule_id m = obj_id)) as [|Hne]; [done|].
      rewrite held_update_guard in Hguard; [done|apply Hwf|].
      apply Exists_exists. by exists m.
  - unfold update, bind. by rewrite (exists_by_id_false _ _ Hno).
Qed.

Lemma well_formed_service_delete st obj_id :
  well_formed st → well_formed (final (delete obj_id) st).
Proof.
  intros Hwf. unfold final, delete, bind.
  destruct (decide (has_id st obj_id)) as [Hid|Hno].
  - rewrite (exists_by_id_true _ _ Hid). simpl.
    apply (well_formed_delete st obj_id Hwf).
  - by rewrite (exists_by_id_false _ _ Hno).
Qed.

Section invariants.
Context `{Chem}.

(** What holds of a store and is kept by every record a row creates
    holds of the store with all the imported records appended. *)
Lemma imported_invariant (P : Store → Prop) fieldnames :
  (∀ st row mol, P st → row_record fieldnames row st = Some mol →
                 P (add_molecule mol st)) →
  ∀ rows st, P st →
    P {| molecules := molecules st ++ imported fieldnames rows st;
         next_id := next_id st + Z.of_nat (length (imported fieldnames rows st)) |}.
Proof.
  intros Hstep rows. induction rows as [|row rows IH]; intros st HP; simpl.
  - rewrite app_nil_r, Z.add_0_r. by destruct st.
  - destruct (row_record fieldnames row st) as [mol|] eqn:Hrow; [|by apply IH].
    specialize (IH _ (Hstep _ _ _ HP Hrow)). simpl in IH.
    rewrite <- app_assoc in IH. simpl in IH.
    replace (next_id st + Z.of_nat (length (mol :: imported fieldnames rows
                                                    (add_molecule mol st))))
      with (next_id st + 1 + Z.of_nat (length (imported fieldnames rows
                                                 (add_molecule mol st))));
      [done|].
    simpl length. lia.
Qed.

(** The import either leaves the store alone or appends the records of
    the specification. *)
Lemma process_csv_file_final lines st :
  final (process_csv_file lines) st = st ∨
  ∃ fieldnames rows, lines = fieldnames :: rows ∧
    final (process_csv_file lines) st
    = {| molecules := molecules st ++ imported fieldnames rows st;
         next_id := next_id st + Z.of_nat (length (imported fieldnames rows st)) |}.
Proof.
  destruct lines as [|fieldnames rows]; [by left|].
  destruct (decide ("smiles" ∈ fieldnames)) as [Hs|Hs];
    [destruct (decide ("name" ∈ fieldnames)) as [Hn|Hn]|].
  - right. exists fieldnames, rows. split; [done|]. unfold final.
    by rewrite (process_csv_file_header_ok fieldnames rows st Hs Hn).
  - left. unfold final.
    by rewrite (proj1 (process_csv_file_header_missing fieldnames rows st (or_intror Hn))).
  - left. unfold final.
    by rewrite (proj1 (process_csv_file_header_missing fieldnames rows st (or_introl Hs))).
Qed.

Lemma row_record_inv fieldnames row st mol :
  row_record fieldnames row st = Some mol →
  molecule_id mol = next_id st ∧ is_Some (MolFromSmiles (smiles mol))
  ∧ ¬ holds_smiles st (smiles mol).
Proof.
  unfold row_record. destruct (row_smiles fieldnames row) as [s|]; [|done].
  destruct (is_valid_smiles s) eqn:Hvalid; [|done].
  case_bool_decide as Hheld; [done|]. simpl. intros [= <-]. simpl.
  split; [done|]. split; [|done]. by apply is_valid_smiles_true.
Qed.

End invariants.

Section reachable_stores.
Context `{Chem}.

Lemma well_formed_import lines st :
  well_formed st → well_formed (final (process_csv_file lines) st).
Proof.
  intros Hwf.
  destruct (process_csv_file_final lines st) as [->|(fieldnames & rows & _ & ->)];
    [done|].
  apply (imported_invariant well_formed); [|done].
  intros st' row mol Hwf' Hrow.
  destruct (row_record_inv _ _ _ _ Hrow) as (Hid & _ & Hnew).
  by apply well_formed_add.
Qed.

Lemma run_query_frame c st :
  match c with
  | CallFindById _ | CallFindAll _ _ | CallGetSubstructures _
  | CallGetIsSubstructureOf _ => run c st = st
  | _ => True
  end.
Proof.
  destruct c; try done; simpl.
  - apply find_by_id_frame.
  - apply get_substructures_frame.
  - apply get_is_substructure_of_frame.
Qed.

Lemma well_formed_run c st : well_formed st → well_formed (run c st).
Proof.
  intros Hwf. pose proof (run_query_frame c st) as Hq.
  destruct c; try (by rewrite Hq); simpl.
  - by apply well_formed_save.
  - by apply well_formed_service_update.
  - by apply well_formed_service_delete.
  - by apply well_formed_import.
Qed.

(** Every store the service can reach has ids and notations as keys. *)
Lemma reachable_well_formed st : reachable st → well_formed st.
Proof.
  induction 1 as [|c st _ IH]; [apply well_formed_empty | by apply well_formed_run].
Qed.

Lemma store_valid_add st mol :
  store_valid st → is_Some (MolFromSmiles (smiles mol)) →
  store_valid (add_molecule mol st).
Proof.
  intros Hvalid Hmol. unfold store_valid. simpl.
  apply Forall_app. split; [done|]. by constructor.
Qed.

Lemma store_valid_run c st :
  checked_at_boundary c → store_valid st → store_valid (run c st).
Proof.
  intros Hchecked Hvalid. pose proof (run_query_frame c st) as Hq.
  destruct c as [r|obj_id r|obj_id|lines| | | |]; try (by rewrite Hq); simpl in *.
  - unfold final.
    destruct (decide (holds_smiles st (req_smiles r))) as [Hdup|Hnew].
    + by rewrite (save_duplicate _ _ Hdup).
    + rewrite (save_fresh _ _ Hnew). simpl.
      by apply (store_valid_add st (mkMolecule (next_id st) (req_smiles r)
                                               (req_name r) (req_description r))).
  - unfold final.
    destruct (decide (has_id st obj_id)) as [Hid|Hno].
    + destruct (update_guard st obj_id (req_smiles r)) eqn:Hguard.
      * by rewrite (update_present _ _ _ Hid), Hguard.
      * rewrite (update_accepted _ _ _ Hid Hguard). simpl.
        unfold store_valid, final. simpl. apply Forall_fmap.
        eapply Forall_impl; [exact Hvalid|].
        intros m Hm. simpl. by case_bool_decide.
    + unfold update, bind. by rewrite (exists_by_id_false _ _ Hno).
  - unfold final, delete, bind.
    destruct (decide (has_id st obj_id)) as [Hid|Hno].
    + rewrite (exists_by_id_true _ _ Hid). simpl. unfold store_valid. simpl.
      apply Forall_forall. intros m [_ Hm]%list_elem_of_filter.
      unfold store_valid in Hvalid. rewrite Forall_forall in Hvalid. by apply Hvalid.
    + by rewrite (exists_by_id_false _ _ Hno).
  - destruct (process_csv_file_final lines st) as [->|(fieldnames & rows & _ & ->)];
      [done|].
    apply (imported_invariant store_valid); [|done].
    intros st' row mol Hvalid' Hrow.
    destruct (row_record_inv _ _ _ _ Hrow) as (_ & Hparse & _).
    by apply store_valid_add.
Qed.

(** C2 (as amended): in every store reached from the empty one by
    [save], [update], [delete], [process_csv_file] and the queries,
    where each [save] and [update] was handed a notation that parses,
    every stored notation parses; the import needs no such condition on
    its rows, it checks each of them itself. *)
Theorem checked_notations_stay_valid st : reachable_checked st → store_valid st.
Proof.
  induction 1 as [|c st _ IH Hchecked].
  - constructor.
  - by apply store_valid_run.
Qed.

(** C7: on every store the service can reach, [update] raises
    [UnknownIdentifierException] when no record has the id; when one
    has, it raises [DuplicateSmilesException] if a record with another
    id holds exactly that notation, and otherwise replaces notation,
    name and description of the record in place, leaves the other
    records alone and returns the record; keeping the record's own
    notation is accepted. *)
Theorem update_spec st obj_id molecule_request :
  reachable st →
  let s := req_smiles molecule_request in
  let updated := {| resp_molecule_id := obj_id; resp_smiles := s;
                    resp_name := req_name molecule_request;
                    resp_description := req_description molecule_request |} in
  (¬ has_id st obj_id →
     update obj_id molecule_request st
     = (Raise (UnknownIdentifierException obj_id), st)) ∧
  (has_id st obj_id → held_by_other st obj_id s →
     update obj_id molecule_request st = (Raise (DuplicateSmilesException s), st)) ∧
  (has_id st obj_id → ¬ held_by_other st obj_id s →
     update obj_id molecule_request st
     = (Ok updated,
        {| molecules :=
             (λ m, if bool_decide (molecule_id m = obj_id)
                   then MoleculeRepository.replace_fields molecule_request m
                   else m) <$> molecules st;
           next_id := next_id st |})) ∧
  (∀ m, m ∈ molecules st → molecule_id m = obj_id → smiles m = s →
     result (update obj_id molecule_request) st = Ok updated).
Proof.
  intros Hreach. cbv zeta.
  pose proof (reachable_well_formed st Hreach) as [_ Hsmiles _].
  assert (has_id st obj_id → ¬ held_by_other st obj_id (req_smiles molecule_request) →
          update_guard st obj_id (req_smiles molecule_request) = false) as Hfree.
  { intros _ Hother. apply not_true_is_false. intros Hguard.
    by apply Hother, update_guard_held. }
  split; [|split; [|split]].
  - intros Hno. unfold update, bind. by rewrite (exists_by_id_false _ _ Hno).
  - intros Hid Hother.
    by rewrite (update_present _ _ _ Hid), (held_update_guard _ _ _ Hsmiles Hother).
  - intros Hid Hother. by rewrite (update_accepted _ _ _ Hid (Hfree Hid Hother)).
  - intros m Hm Hmid Hs.
    assert (has_id st obj_id) as Hid by (apply Exists_exists; by exists m).
    unfold result. rewrite (update_accepted _ _ _ Hid); [done|].
    apply Hfree; [done|].
    intros (m' & Hm' & Hs' & Hne)%Exists_exists. apply Hne.
    assert (m ∈ filter (λ m, smiles m = req_smiles molecule_request) (molecules st)) as Hin
      by (by apply list_elem_of_filter).
    destruct (filter (λ m, smiles m = req_smiles molecule_request) (molecules st)) as [|first same] eqn:Hf;
      [by apply elem_of_nil in Hin|].
    assert (head (filter (λ m, smiles m = req_smiles molecule_request) (molecules st)) = Some first) as Hhead
      by (by rewrite Hf).
    rewrite (same_smiles_head _ _ _ Hsmiles Hhead m' Hm' Hs').
    by rewrite <- (same_smiles_head _ _ _ Hsmiles Hhead m Hm Hs).
Qed.

End reachable_stores.

Lemma alcohol_store_reachable : @reachable ToyChem.chem alcohol_store.
Proof.
  apply (@reachable_run ToyChem.chem (CallSave ethanol_request)
           (@run ToyChem.chem (CallSave methanol_request) empty_store)).
  apply (@reachable_run ToyChem.chem (CallSave methanol_request) empty_store).
  apply reachable_empty.
Defined.

Lemma update_spec_witness :
  update 7 ethanol_request alcohol_store
  = (Raise (UnknownIdentifierException 7), alcohol_store) ∧
  update 2 methanol_request alcohol_store
  = (Raise (DuplicateSmilesException "CO"), alcohol_store) ∧
  update 2 {| req_smiles := "CCC"; req_name := Some "propane";
              req_description := None |} alcohol_store
  = (Ok {| resp_molecule_id := 2; resp_smiles := "CCC";
           resp_name := Some "propane"; resp_description := None |},
     {| molecules := [methanol;
                      {| molecule_id := 2; smiles := "CCC";
                         name := Some "propane"; description := None |}];
        next_id := 3 |}) ∧
  result (update 2 {| req_smiles := "CCO"; req_name := None;
                      req_description := Some "drinkable" |}) alcohol_store
  = Ok {| resp_molecule_id := 2; resp_smiles := "CCO";
          resp_name := None; resp_description := Some "drinkable" |}.
Proof.
  split; [|split; [|split]].
  - apply (@update_spec ToyChem.chem alcohol_store 7 ethanol_request);
      [exact alcohol_store_reachable | compute_done].
  - apply (@update_spec ToyChem.chem alcohol_store 2 methanol_request);
      [exact alcohol_store_reachable | compute_done | compute_done].
  - apply (@update_spec ToyChem.chem alcohol_store 2
             {| req_smiles := "CCC"; req_name := Some "propane";
                req_description := None |});
      [exact alcohol_store_reachable | compute_done | compute_done].
  - apply (@update_spec ToyChem.chem alcohol_store 2
             {| req_smiles := "CCO"; req_name := None;
                req_description := Some "drinkable" |}) with ethanol;
      [exact alcohol_store_reachable | right; by left | reflexivity | reflexivity].
Defined.

(** The claim C2 as stated fails: one [save] of a notation that does
    not parse, on the empty store, is a reachable store holding that
    notation. *)
Lemma unchecked_save_persists :
  @reachable ToyChem.chem (@run ToyChem.chem (CallSave not_smiles_request) empty_store) ∧
  molecules (@run ToyChem.chem (CallSave not_smiles_request) empty_store)
  = [{| molecule_id := 1; smiles := "not a molecule"; name := None;
        description := None |}] ∧
  @MolFromSmiles ToyChem.chem "not a molecule" = None ∧
  ¬ @store_valid ToyChem.chem
      (@run ToyChem.chem (CallSave not_smiles_request) empty_store).
Proof.
  split; [|split; [|split]].
  - apply reachable_run, reachable_empty.
  - reflexivity.
  - reflexivity.
  - compute_done.
Qed.

Lemma checked_notations_stay_valid_witness :
  @store_valid ToyChem.chem
    (@run ToyChem.chem
       (CallProcessCsvFile [["smiles"; "name"]; ["C C"; "broken"]; ["CCO"; "ethanol"]])
       (@run ToyChem.chem (CallSave aspirin_request) empty_store)).
Proof.
  apply (@checked_notations_stay_valid ToyChem.chem).
  apply reachable_checked_run; [|exact I].
  apply reachable_checked_run; [apply reachable_checked_empty|].
  by exists aspirin.
Defined.

(** * Further properties of the service *)

(** ** Lookups *)

Lemma find_by_id_lookup st obj_id :
  find_by_id obj_id st
  = (match List.find (λ m, bool_decide (molecule_id m = obj_id)) (molecules st) with
     | Some m => Ok (to_response m)
     | None => Raise (UnknownIdentifierException obj_id)
     end, st).
Proof.
  unfold find_by_id, bind, exists_by_id, bind, MoleculeRepository.find_by_id, ret.
  destruct (List.find _ (molecules st)) as [m|] eqn:Hf; simpl.
  - by rewrite Hf.
  - done.
Qed.

Lemma find_id_unique (l : list Molecule) m :
  NoDup (molecule_id <$> l) → m ∈ l →
  List.find (λ m', bool_decide (molecule_id m' = molecule_id m)) l = Some m.
Proof.
  induction l as [|a l IH]; intros Hdup Hm; [by apply elem_of_nil in Hm|].
  rewrite fmap_cons, NoDup_cons in Hdup. destruct Hdup as [Hnot Hdup]. simpl.
  apply elem_of_cons in Hm as [->|Hm].
  - by rewrite bool_decide_true.
  - rewrite bool_decide_false; [by apply IH|].
    intros Heq. apply Hnot. rewrite Heq. by apply list_elem_of_fmap_2.
Qed.

(** X1: [exists_by_id] never raises and never touches the store; it
    answers true exactly when some stored record carries the id. *)
Theorem exists_by_id_spec st obj_id :
  exists_by_id obj_id st = (Ok (bool_decide (has_id st obj_id)), st).
Proof.
  destruct (decide (has_id st obj_id)) as [Hid|Hno].
  - rewrite bool_decide_true by done. by apply exists_by_id_true.
  - rewrite bool_decide_false by done. by apply exists_by_id_false.
Qed.

(** X2: when ids are keys of the table, [find_by_id] on the id of a
    stored record returns that very record, with its notation, name and
    description, and leaves the store alone. *)
Theorem find_by_id_stored st m :
  NoDup (molecule_id <$> molecules st) → m ∈ molecules st →
  find_by_id (molecule_id m) st = (Ok (to_response m), st).
Proof.
  intros Hdup Hm. rewrite find_by_id_lookup.
  by rewrite (find_id_unique _ _ Hdup Hm).
Qed.

Lemma find_by_id_stored_witness :
  find_by_id 2 alcohol_store
  = (Ok {| resp_molecule_id := 2; resp_smiles := "CCO";
           resp_name := Some "ethanol"; resp_description := None |}, alcohol_store).
Proof.
  apply (find_by_id_stored alcohol_store ethanol).
  - compute_done.
  - right. by left.
Defined.

Lemma find_id_app_fresh (l : list Molecule) mol :
  Forall (λ m, molecule_id m < molecule_id mol) l →
  List.find (λ m, bool_decide (molecule_id m = molecule_id mol)) (l ++ [mol]) = Some mol.
Proof.
  induction 1 as [|a l Ha _ IH]; simpl.
  - by rewrite bool_decide_true.
  - rewrite bool_decide_false by lia. done.
Qed.

(** A created record is found again under the id [save] returned. *)
Lemma save_then_find_wf st r :
  well_formed st → ¬ holds_smiles st (req_smiles r) →
  ∃ resp, save r st = (Ok resp, final (save r) st)
          ∧ resp_smiles resp = req_smiles r
          ∧ resp_name resp = req_name r
          ∧ resp_description resp = req_description r
          ∧ find_by_id (resp_molecule_id resp) (final (save r) st)
            = (Ok resp, final (save r) st).
Proof.
  intros [_ _ Hfresh] Hnew. unfold final. rewrite (save_fresh _ _ Hnew). simpl.
  eexists. split; [reflexivity|]. repeat (split; [reflexivity|]). simpl.
  pose proof (find_id_app_fresh (molecules st)
                (mkMolecule (next_id st) (req_smiles r) (req_name r) (req_description r))
                Hfresh) as Hfind.
  simpl in Hfind. rewrite find_by_id_lookup. simpl. by rewrite Hfind.
Qed.

Section round_trips.
Context `{Chem}.

(** X3: on every store the service can reach, a [save] of a notation
    that is not stored yet returns a record carrying the fields of the
    request, and [find_by_id] on the returned id gives back that same
    record. *)
Theorem save_then_find st molecule_request :
  reachable st → ¬ holds_smiles st (req_smiles molecule_request) →
  ∃ resp, save molecule_request st = (Ok resp, final (save molecule_request) st)
          ∧ resp_smiles resp = req_smiles molecule_request
          ∧ resp_name resp = req_name molecule_request
          ∧ resp_description resp = req_description molecule_request
          ∧ find_by_id (resp_molecule_id resp) (final (save molecule_request) st)
            = (Ok resp, final (save molecule_request) st).
Proof.
  intros Hreach Hnew. apply save_then_find_wf; [|done].
  by apply reachable_well_formed.
Qed.

End round_trips.

Lemma save_then_find_witness :
  ∃ resp, save aspirin_request alcohol_store
          = (Ok resp, final (save aspirin_request) alcohol_store)
          ∧ resp_smiles resp = aspirin
          ∧ resp_name resp = Some "Aspirin"%string
          ∧ resp_description resp = None
          ∧ find_by_id (resp_molecule_id resp) (final (save aspirin_request) alcohol_store)
            = (Ok resp, final (save aspirin_request) alcohol_store).
Proof.
  apply (@save_then_find ToyChem.chem alcohol_store aspirin_request).
  - exact alcohol_store_reachable.
  - compute_done.
Defined.

(** X4: whenever [update] returns a record, [find_by_id] on the same id
    in the store it left returns that same record. *)
Theorem update_then_find st obj_id molecule_request resp st' :
  update obj_id molecule_request st = (Ok resp, st') →
  find_by_id obj_id st' = (Ok resp, st').
Proof.
  intros Hupdate.
  destruct (decide (has_id st obj_id)) as [Hid|Hno].
  - destruct (update_guard st obj_id (req_smiles molecule_request)) eqn:Hguard.
    + by rewrite (update_present _ _ _ Hid), Hguard in Hupdate.
    + rewrite (update_accepted _ _ _ Hid Hguard) in Hupdate.
      injection Hupdate as <- <-.
      rewrite find_by_id_lookup. unfold final. simpl. rewrite find_replace.
      apply Exists_exists in Hid. destruct (find_id_is_Some _ _ Hid) as [m0 Hm0].
      rewrite Hm0. simpl. destruct (find_id_Some _ _ _ Hm0) as [_ Hid0].
      unfold to_response. simpl. by rewrite Hid0.
  - unfold update, bind in Hupdate.
    by rewrite (exists_by_id_false _ _ Hno) in Hupdate.
Qed.

Lemma update_then_find_witness :
  find_by_id 2 {| molecules := [methanol; {| molecule_id := 2; smiles := "CCC";
                                             name := None; description := None |}];
                  next_id := 3 |}
  = (Ok {| resp_molecule_id := 2; resp_smiles := "CCC"; resp_name := None;
           resp_description := None |},
     {| molecules := [methanol; {| molecule_id := 2; smiles := "CCC";
                                   name := None; description := None |}];
        next_id := 3 |}).
Proof.
  apply (update_then_find alcohol_store 2
           {| req_smiles := "CCC"; req_name := None; req_description := None |}).
  reflexivity.
Defined.

(** ** Deleting *)

Lemma find_id_filter_other (l : list Molecule) obj_id other :
  other ≠ obj_id →
  List.find (λ m, bool_decide (molecule_id m = other))
            (filter (λ m, molecule_id m ≠ obj_id) l)
  = List.find (λ m, bool_decide (molecule_id m = other)) l.
Proof.
  intros Hne. induction l as [|a l IH]; [done|].
  rewrite filter_cons. destruct (decide (molecule_id a ≠ obj_id)) as [Ha|Ha]; simpl.
  - by rewrite IH.
  - rewrite bool_decide_false; [done|].
    intros Heq. apply Ha. congruence.
Qed.

(** X5: [delete] on an id that is present returns true, removes the
    records with that id and nothing else, keeps the order of the rest
    and the id counter, and changes what [find_by_id] answers for no
    other id. *)
Theorem delete_spec st obj_id :
  has_id st obj_id →
  delete obj_id st
  = (Ok true, {| molecules := filter (λ m, molecule_id m ≠ obj_id) (molecules st);
                 next_id := next_id st |})
  ∧ ∀ other, other ≠ obj_id →
      result (find_by_id other) (final (delete obj_id) st)
      = result (find_by_id other) st.
Proof.
  intros Hid.
  assert (delete obj_id st
          = (Ok true, {| molecules := filter (λ m, molecule_id m ≠ obj_id) (molecules st);
                         next_id := next_id st |})) as Hdelete.
  { unfold delete, bind. rewrite (exists_by_id_true _ _ Hid). simpl.
    unfold MoleculeRepository.delete. by rewrite bool_decide_true. }
  split; [done|].
  intros other Hne. unfold result, final. rewrite Hdelete, !find_by_id_lookup. simpl.
  by rewrite find_id_filter_other.
Qed.

Lemma delete_spec_witness :
  delete 1 alcohol_store = (Ok true, {| molecules := [ethanol]; next_id := 3 |})
  ∧ ∀ other, other ≠ 1 →
      result (find_by_id other) (final (delete 1) alcohol_store)
      = result (find_by_id other) alcohol_store.
Proof. apply (delete_spec alcohol_store 1). compute_done. Defined.

(** ** What an import creates *)

Lemma holds_smiles_add st mol s :
  holds_smiles (add_molecule mol st) s ↔ holds_smiles st s ∨ smiles mol = s.
Proof.
  unfold holds_smiles. simpl. rewrite Exists_app, Exists_cons, Exists_nil. tauto.
Qed.

Lemma store_with (l l' : list Molecule) (n n' : Z) :
  l = l' → n = n' → mkStore l n = mkStore l' n'.
Proof. by intros -> ->. Qed.

Section imports.
Context `{Chem}.

Lemma row_record_fields fieldnames row st mol :
  row_record fieldnames row st = Some mol →
  row_smiles fieldnames row = Some (smiles mol)
  ∧ name mol = row_name fieldnames row ∧ description mol = None.
Proof.
  unfold row_record. destruct (row_smiles fieldnames row) as [s|]; [|done].
  destruct (_ && _); [|done]. by intros [= <-].
Qed.

Lemma imported_length fieldnames rows st :
  (length (imported fieldnames rows st) ≤ length rows)%nat.
Proof.
  revert st. induction rows as [|row rows IH]; intros st; simpl; [done|].
  destruct (row_record fieldnames row st) as [mol|]; simpl.
  - specialize (IH (add_molecule mol st)). lia.
  - specialize (IH st). lia.
Qed.

Lemma imported_ids fieldnames rows st :
  molecule_id <$> imported fieldnames rows st
  = seqZ (next_id st) (Z.of_nat (length (imported fieldnames rows st))).
Proof.
  revert st. induction rows as [|row rows IH]; intros st; simpl; [done|].
  destruct (row_record fieldnames row st) as [mol|] eqn:Hrow; [|apply IH].
  destruct (row_record_inv _ _ _ _ Hrow) as (Hid & _ & _).
  rewrite fmap_cons, IH, Hid. simpl length.
  rewrite (seqZ_cons (next_id st)) by lia.
  f_equal. f_equal; lia.
Qed.

Lemma imported_fresh fieldnames rows st :
  Forall (λ m, is_Some (MolFromSmiles (smiles m)) ∧ ¬ holds_smiles st (smiles m)
               ∧ description m = None)
         (imported fieldnames rows st)
  ∧ NoDup (smiles <$> imported fieldnames rows st).
Proof.
  revert st. induction rows as [|row rows IH]; intros st; simpl.
  - split; constructor.
  - destruct (row_record fieldnames row st) as [mol|] eqn:Hrow; [|apply IH].
    destruct (row_record_inv _ _ _ _ Hrow) as (_ & Hparse & Hnew).
    destruct (row_record_fields _ _ _ _ Hrow) as (_ & _ & Hdescr).
    destruct (IH (add_molecule mol st)) as [Hall Hdup].
    split.
    + constructor; [done|].
      eapply Forall_impl; [exact Hall|]. intros m (Hm & Hheld & Hd).
      split; [done|]. split; [|done].
      intros Hst. apply Hheld, holds_smiles_add. by left.
    + rewrite fmap_cons. apply NoDup_cons. split; [|done].
      intros (m & Heq & Hm)%list_elem_of_fmap.
      rewrite Forall_forall in Hall. destruct (Hall m Hm) as (_ & Hheld & _).
      apply Hheld, holds_smiles_add. by right.
Qed.

(** X6: with both required columns in the header, the records an import
    appends are at most one per data row, carry consecutive ids that
    start at the id counter, have notations that parse, that differ
    from one another and from every notation stored before, and have no
    description; the returned count is their number. *)
Theorem process_csv_file_creates fieldnames rows st :
  "smiles" ∈ fieldnames → "name" ∈ fieldnames →
  ∃ created,
    process_csv_file (fieldnames :: rows) st
    = (Ok (Z.of_nat (length created)),
       {| molecules := molecules st ++ created;
          next_id := next_id st + Z.of_nat (length created) |})
    ∧ (length created ≤ length rows)%nat
    ∧ molecule_id <$> created = seqZ (next_id st) (Z.of_nat (length created))
    ∧ NoDup (smiles <$> created)
    ∧ Forall (λ m, is_Some (MolFromSmiles (smiles m)) ∧ ¬ holds_smiles st (smiles m)
                   ∧ description m = None) created.
Proof.
  intros Hs Hn. exists (imported fieldnames rows st).
  split; [by apply process_csv_file_header_ok|].
  split; [apply imported_length|].
  split; [apply imported_ids|].
  destruct (imported_fresh fieldnames rows st) as [Hall Hdup]. done.
Qed.

(** Once the notations a file can create are stored, the file creates
    nothing. *)
Lemma imported_nothing fieldnames rows st :
  (∀ row s, row ∈ rows → row_smiles fieldnames row = Some s →
            is_Some (MolFromSmiles s) → holds_smiles st s) →
  imported fieldnames rows st = [].
Proof.
  induction rows as [|row rows IH]; intros Hheld; simpl; [done|].
  destruct (row_record fieldnames row st) as [mol|] eqn:Hrow.
  - exfalso. destruct (row_record_inv _ _ _ _ Hrow) as (_ & Hparse & Hnew).
    destruct (row_record_fields _ _ _ _ Hrow) as (Hsm & _).
    apply Hnew. apply (Hheld row); [by left | done..].
  - apply IH. intros row' s Hin. apply Hheld. by right.
Qed.

Lemma imported_stored fieldnames rows st row s :
  row ∈ rows → row_smiles fieldnames row = Some s → is_Some (MolFromSmiles s) →
  Exists (λ m, smiles m = s) (molecules st ++ imported fieldnames rows st).
Proof.
  revert st. induction rows as [|row' rows IH]; intros st Hin Hsm Hparse;
    [by apply elem_of_nil in Hin|].
  simpl. apply elem_of_cons in Hin as [->|Hin].
  - unfold row_record. rewrite Hsm.
    apply is_valid_smiles_true in Hparse. rewrite Hparse. simpl.
    case_bool_decide as Hheld; simpl.
    + apply Exists_app. by left.
    + apply Exists_app. right. by left.
  - destruct (row_record fieldnames row' st) as [mol|]; [|by apply IH].
    specialize (IH (add_molecule mol st) Hin Hsm Hparse). simpl in IH.
    by rewrite <- app_assoc in IH.
Qed.

(** X7: importing a file a second time, right after the first, creates
    nothing: with both required columns in the header the second call
    returns 0 and leaves the store as the first call left it. *)
Theorem process_csv_file_twice fieldnames rows st :
  "smiles" ∈ fieldnames → "name" ∈ fieldnames →
  process_csv_file (fieldnames :: rows)
                   (final (process_csv_file (fieldnames :: rows)) st)
  = (Ok 0, final (process_csv_file (fieldnames :: rows)) st).
Proof.
  intros Hs Hn. unfold final.
  rewrite (process_csv_file_header_ok fieldnames rows st Hs Hn). cbn [snd].
  rewrite (process_csv_file_header_ok fieldnames rows _ Hs Hn).
  rewrite imported_nothing.
  - cbn [length molecules next_id]. f_equal.
    apply store_with; [by rewrite app_nil_r | lia].
  - intros row s Hin Hsm Hparse. by apply imported_stored with row.
Qed.

Lemma row_record_request fieldnames row st :
  row_record fieldnames row st
  = match row_request fieldnames row with
    | Some r =>
        if bool_decide (holds_smiles st (req_smiles r)) then None
        else Some {| molecule_id := next_id st; smiles := req_smiles r;
                     name := req_name r; description := None |}
    | None => None
    end.
Proof.
  unfold row_record, row_request.
  destruct (row_smiles fieldnames row) as [s|]; [|done].
  destruct (is_valid_smiles s); [|done]. simpl.
  by case_bool_decide.
Qed.

Lemma imported_as_saves fieldnames rows st :
  {| molecules := molecules st ++ imported fieldnames rows st;
     next_id := next_id st + Z.of_nat (length (imported fieldnames rows st)) |}
  = foldl (λ st r, final (save r) st) st (omap (row_request fieldnames) rows).
Proof.
  revert st. induction rows as [|row rows IH]; intros st; simpl.
  - destruct st. apply store_with; [by rewrite app_nil_r | simpl; lia].
  - rewrite row_record_request.
    destruct (row_request fieldnames row) as [r|] eqn:Hreq; simpl; [|apply IH].
    case_bool_decide as Hheld.
    + unfold final at 2. rewrite (save_duplicate _ _ Hheld). simpl. apply IH.
    + assert (req_description r = None) as Hdescr.
      { unfold row_request in Hreq.
        destruct (row_smiles fieldnames row); [|done].
        destruct (is_valid_smiles _); [|done]. by injection Hreq as <-. }
      unfold final at 2. rewrite (save_fresh _ _ Hheld). cbn [snd].
      rewrite Hdescr, <- IH. unfold add_molecule. cbn [molecules next_id].
      apply store_with; [by rewrite <- app_assoc|].
      rewrite length_cons, Nat2Z.inj_succ. lia.
Qed.

(** X8: with both required columns in the header, the store an import
    leaves is the one left by calling [save], in row order, for every
    row whose notation parses, with the row's notation and name and no
    description. *)
Theorem process_csv_file_as_saves fieldnames rows st :
  "smiles" ∈ fieldnames → "name" ∈ fieldnames →
  final (process_csv_file (fieldnames :: rows)) st
  = foldl (λ st r, final (save r) st) st (omap (row_request fieldnames) rows).
Proof.
  intros Hs Hn. unfold final at 1.
  rewrite (process_csv_file_header_ok fieldnames rows st Hs Hn). simpl.
  apply imported_as_saves.
Qed.

Lemma imported_columns_swapped (pairs : list (string * string)) st :
  imported ["name"; "smiles"] ((λ p, [p.2; p.1]) <$> pairs) st
  = imported ["smiles"; "name"] ((λ p, [p.1; p.2]) <$> pairs) st.
Proof.
  revert st. induction pairs as [|[s n] pairs IH]; intros st; [done|].
  rewrite !fmap_cons. simpl.
  assert (row_record ["name"; "smiles"] [n; s] st
          = row_record ["smiles"; "name"] [s; n] st) as -> by done.
  destruct (row_record ["smiles"; "name"] [s; n] st); by rewrite IH.
Qed.

(** X9: the order of the two columns does not matter: a file with the
    header [name,smiles] and its fields in that order gives the same
    count and the same store as the file with the header [smiles,name]
    and the fields swapped. *)
Theorem process_csv_file_column_order (pairs : list (string * string)) st :
  process_csv_file (["name"; "smiles"] :: ((λ p, [p.2; p.1]) <$> pairs)) st
  = process_csv_file (["smiles"; "name"] :: ((λ p, [p.1; p.2]) <$> pairs)) st.
Proof.
  rewrite !process_csv_file_header_ok;
    try (by left); try (right; by left).
  by rewrite imported_columns_swapped.
Qed.

End imports.

Lemma process_csv_file_creates_witness :
  ∃ created,
    @process_csv_file ToyChem.chem (["smiles"; "name"] :: sample_rows) aspirin_store
    = (Ok (Z.of_nat (length created)),
       {| molecules := molecules aspirin_store ++ created;
          next_id := next_id aspirin_store + Z.of_nat (length created) |})
    ∧ (length created ≤ length sample_rows)%nat
    ∧ molecule_id <$> created
      = seqZ (next_id aspirin_store) (Z.of_nat (length created))
    ∧ NoDup (smiles <$> created)
    ∧ Forall (λ m, is_Some (@MolFromSmiles ToyChem.chem (smiles m))
                   ∧ ¬ holds_smiles aspirin_store (smiles m)
                   ∧ description m = None) created.
Proof.
  apply (@process_csv_file_creates ToyChem.chem ["smiles"; "name"] sample_rows
           aspirin_store).
  - by left.
  - right. by left.
Defined.

Lemma process_csv_file_twice_witness :
  @process_csv_file ToyChem.chem (["smiles"; "name"] :: sample_rows)
    (final (@process_csv_file ToyChem.chem (["smiles"; "name"] :: sample_rows))
           aspirin_store)
  = (Ok 0, final (@process_csv_file ToyChem.chem (["smiles"; "name"] :: sample_rows))
                 aspirin_store).
Proof.
  apply (@process_csv_file_twice ToyChem.chem ["smiles"; "name"] sample_rows
           aspirin_store).
  - by left.
  - right. by left.
Defined.

Lemma process_csv_file_as_saves_witness :
  final (@process_csv_file ToyChem.chem (["smiles"; "name"] :: sample_rows)) aspirin_store
  = foldl (λ st r, final (save r) st) aspirin_store
          (omap (@row_request ToyChem.chem ["smiles"; "name"]) sample_rows).
Proof.
  apply (@process_csv_file_as_saves ToyChem.chem ["smiles"; "name"] sample_rows
           aspirin_store).
  - by left.
  - right. by left.
Defined.

(** ** Ids and notations as keys *)

Section keys.
Context `{Chem}.

(** What a call can do to the store. *)
Lemma run_cases c st :
  run c st = st
  ∨ (∃ r, ¬ holds_smiles st (req_smiles r)
          ∧ run c st = add_molecule {| molecule_id := next_id st; smiles := req_smiles r;
                                       name := req_name r;
                                       description := req_description r |} st)
  ∨ (∃ obj_id r, run c st = final (MoleculeRepository.update obj_id r) st)
  ∨ (∃ obj_id, run c st = final (MoleculeRepository.delete obj_id) st)
  ∨ (∃ fieldnames rows,
       run c st
       = {| molecules := molecules st ++ imported fieldnames rows st;
            next_id := next_id st + Z.of_nat (length (imported fieldnames rows st)) |}).
Proof.
  pose proof (run_query_frame c st) as Hq.
  destruct c as [r|obj_id r|obj_id|lines| | | |]; try (by left); simpl.
  - destruct (decide (holds_smiles st (req_smiles r))) as [Hdup|Hnew].
    + left. unfold final. by rewrite (save_duplicate _ _ Hdup).
    + right. left. exists r. split; [done|].
      unfold final. by rewrite (save_fresh _ _ Hnew).
  - destruct (decide (has_id st obj_id)) as [Hid|Hno].
    + destruct (update_guard st obj_id (req_smiles r)) eqn:Hguard.
      * left. unfold final. by rewrite (update_present _ _ _ Hid), Hguard.
      * right. right. left. exists obj_id, r.
        unfold final at 1. by rewrite (update_accepted _ _ _ Hid Hguard).
    + left. unfold final, update, bind. by rewrite (exists_by_id_false _ _ Hno).
  - destruct (decide (has_id st obj_id)) as [Hid|Hno].
    + right. right. right. left. exists obj_id.
      unfold final at 1, delete, bind. by rewrite (exists_by_id_true _ _ Hid).
    + left. unfold final, delete, bind. by rewrite (exists_by_id_false _ _ Hno).
  - destruct (process_csv_file_final lines st) as [->|(fieldnames & rows & _ & ->)];
      [by left|].
    right. right. right. right. by exists fieldnames, rows.
Qed.

Lemma nonnegative_run c st :
  0 ≤ next_id st ∧ Forall (λ m, 0 ≤ molecule_id m) (molecules st) →
  0 ≤ next_id (run c st) ∧ Forall (λ m, 0 ≤ molecule_id m) (molecules (run c st)).
Proof.
  intros [Hnext Hids].
  destruct (run_cases c st)
    as [->|[(r & _ & ->)|[(obj_id & r & ->)|[(obj_id & ->)|(fieldnames & rows & ->)]]]];
    simpl.
  - done.
  - split; [lia|]. apply Forall_app. split; [done|]. by constructor.
  - split; [done|]. apply Forall_fmap. eapply Forall_impl; [exact Hids|].
    intros m Hm. simpl. by case_bool_decide.
  - split; [done|]. apply Forall_forall. intros m [_ Hm]%list_elem_of_filter.
    rewrite Forall_forall in Hids. by apply Hids.
  - split; [lia|]. apply Forall_app. split; [done|].
    apply Forall_forall. intros m Hm.
    assert (molecule_id m ∈ molecule_id <$> imported fieldnames rows st) as Hin
      by (by apply list_elem_of_fmap_2).
    rewrite imported_ids in Hin. apply elem_of_seqZ in Hin. lia.
Qed.

Lemma reachable_nonnegative st :
  reachable st → 0 ≤ next_id st ∧ Forall (λ m, 0 ≤ molecule_id m) (molecules st).
Proof.
  induction 1 as [|c st _ IH]; [|by apply nonnegative_run].
  split; [done|constructor].
Qed.

(** X10: in every store reached from the empty one through the
    service, no two records share an id, no two records share a
    notation, and every id lies between 0 and the id counter. *)
Theorem reachable_keys st :
  reachable st →
  NoDup (molecule_id <$> molecules st)
  ∧ NoDup (smiles <$> molecules st)
  ∧ Forall (λ m, 0 ≤ molecule_id m < next_id st) (molecules st).
Proof.
  intros Hreach. destruct (reachable_well_formed st Hreach) as [Hids Hsmiles Hfresh].
  destruct (reachable_nonnegative st Hreach) as [_ Hnonneg].
  split; [done|]. split; [done|].
  rewrite Forall_forall in Hfresh, Hnonneg. apply Forall_forall.
  intros m Hm. specialize (Hfresh m Hm). specialize (Hnonneg m Hm).
  simpl in *. lia.
Qed.

(** X11: no call ever lowers the id counter, and every record in the
    store after a call either carries an id that was in the store
    before the call or an id at or above the counter the call started
    from: an id that was handed out is never handed out again. *)
Theorem ids_never_reused c st :
  next_id st ≤ next_id (run c st)
  ∧ ∀ m, m ∈ molecules (run c st) →
      molecule_id m ∈ (molecule_id <$> molecules st)
      ∨ next_id st ≤ molecule_id m < next_id (run c st).
Proof.
  destruct (run_cases c st)
    as [->|[(r & _ & ->)|[(obj_id & r & ->)|[(obj_id & ->)|(fieldnames & rows & ->)]]]];
    unfold final; simpl.
  - split; [lia|]. intros m Hm. left. by apply list_elem_of_fmap_2.
  - split; [lia|]. intros m [Hm|Hm]%elem_of_app.
    + left. by apply list_elem_of_fmap_2.
    + right. apply list_elem_of_singleton in Hm as ->. simpl. lia.
  - split; [lia|]. intros m Hm. left.
    rewrite <- (update_ids (molecules st) obj_id r).
    by apply list_elem_of_fmap_2.
  - split; [lia|]. intros m [_ Hm]%list_elem_of_filter. left.
    by apply list_elem_of_fmap_2.
  - split; [lia|]. intros m [Hm|Hm]%elem_of_app.
    + left. by apply list_elem_of_fmap_2.
    + right.
      assert (molecule_id m ∈ molecule_id <$> imported fieldnames rows st) as Hin
        by (by apply list_elem_of_fmap_2).
      rewrite imported_ids in Hin. by apply elem_of_seqZ in Hin.
Qed.

End keys.

Lemma reachable_keys_witness :
  NoDup (molecule_id <$> molecules alcohol_store)
  ∧ NoDup (smiles <$> molecules alcohol_store)
  ∧ Forall (λ m, 0 ≤ molecule_id m < next_id alcohol_store) (molecules alcohol_store).
Proof. apply (@reachable_keys ToyChem.chem), alcohol_store_reachable. Defined.

(** ** The search for containers *)

Section containers.
Context `{Chem}.

(** X12: a query the validator rejects makes [get_is_substructure_of]
    raise [InvalidSmilesException] with that query; a query it accepts,
    on a store whose notations all parse, returns exactly the records
    whose structure contains the query, over the whole table and in
    insertion order. *)
Theorem get_is_substructure_of_spec s st :
  (MolFromSmiles s = None →
     get_is_substructure_of s st = (Raise (InvalidSmilesException s), st)) ∧
  (is_Some (MolFromSmiles s) → store_valid st →
     get_is_substructure_of s st = (Ok (to_response <$> container_records s st), st) ∧
     ∀ m, to_response m ∈ (to_response <$> container_records s st)
          ↔ m ∈ molecules st ∧ contains (smiles m) s = true).
Proof.
  split.
  - intros Hs.
    unfold get_is_substructure_of, bind,
      get_chem_molecule_from_smiles_or_raise_exception.
    by rewrite Hs.
  - intros Hs Hvalid. split; [by apply get_is_substructure_of_valid|].
    intros m. rewrite (list_elem_of_fmap_inj to_response).
    unfold container_records. rewrite list_elem_of_filter. tauto.
Qed.

(** X13: the two searches are each other's mirror: in a store whose
    notations all parse, for stored records a and b, the search for the
    substructures of b's notation returns a exactly when the search for
    the containers of a's notation returns b. *)
Theorem search_mirror st a b :
  store_valid st → a ∈ molecules st → b ∈ molecules st →
  ∃ substructures is_substructure_of,
    get_substructures (smiles b) st = (Ok substructures, st)
    ∧ get_is_substructure_of (smiles a) st = (Ok is_substructure_of, st)
    ∧ (to_response a ∈ substructures ↔ to_response b ∈ is_substructure_of).
Proof.
  intros Hvalid Ha Hb.
  assert (is_Some (MolFromSmiles (smiles a))) as Hpa
    by (unfold store_valid in Hvalid; rewrite Forall_forall in Hvalid; by apply Hvalid).
  assert (is_Some (MolFromSmiles (smiles b))) as Hpb
    by (unfold store_valid in Hvalid; rewrite Forall_forall in Hvalid; by apply Hvalid).
  eexists _, _.
  split; [by apply get_substructures_valid|].
  split; [by apply get_is_substructure_of_valid|].
  rewrite !(list_elem_of_fmap_inj to_response).
  unfold contained_records, container_records. rewrite !list_elem_of_filter. tauto.
Qed.

End containers.

Lemma get_is_substructure_of_spec_witness :
  @get_is_substructure_of ToyChem.chem "not a molecule" alcohol_store
  = (Raise (InvalidSmilesException "not a molecule"), alcohol_store) ∧
  @get_is_substructure_of ToyChem.chem "CO" alcohol_store
  = (Ok (to_response <$> @container_records ToyChem.chem "CO" alcohol_store),
     alcohol_store).
Proof.
  split.
  - apply (@get_is_substructure_of_spec ToyChem.chem "not a molecule" alcohol_store).
    reflexivity.
  - apply (@get_is_substructure_of_spec ToyChem.chem "CO" alcohol_store).
    + by exists "CO"%string.
    + compute_done.
Defined.

Lemma search_mirror_witness :
  ∃ substructures is_substructure_of,
    @get_substructures ToyChem.chem "CCO" alcohol_store = (Ok substructures, alcohol_store)
    ∧ @get_is_substructure_of ToyChem.chem "CO" alcohol_store
      = (Ok is_substructure_of, alcohol_store)
    ∧ (to_response methanol ∈ substructures ↔ to_response ethanol ∈ is_substructure_of).
Proof.
  apply (@search_mirror ToyChem.chem alcohol_store methanol ethanol).
  - compute_done.
  - by left.
  - right. by left.
Defined.

(** ** [src/models.py] *)

Lemma from_add_molecule_requests_spec requests st :
  Models.from_add_molecule_requests requests st
  = (Ok (imap (λ i r, {| molecule_id := next_id st + Z.of_nat i;
                         smiles := Models.AddMoleculeRequest.smiles r;
                         name := Models.AddMoleculeRequest.molecule_name r;
                         description := Models.AddMoleculeRequest.description r |})
              requests),
     {| molecules := molecules st;
        next_id := next_id st + Z.of_nat (length requests) |}).
Proof.
  revert st. induction requests as [|r requests IH]; intros st.
  - simpl. unfold ret. f_equal. destruct st. apply store_with; [done | simpl; lia].
  - cbn [Models.from_add_molecule_requests]. unfold bind at 1.
    unfold Models.from_add_molecule_request, Molecule_init.
    unfold bind at 1. rewrite IH. cbn [molecules next_id]. unfold ret.
    f_equal.
    + f_equal. cbn [imap]. f_equal; [f_equal; lia|].
      apply imap_ext. intros i r' _. simpl. f_equal. lia.
    + apply store_with; [done|]. rewrite length_cons, Nat2Z.inj_succ. lia.
Qed.

(** X14: molecules built one after the other from a list of requests
    carry the fields of their requests and the consecutive ids that
    start at the class counter, so no two of them share an id; the
    counter ends advanced by their number, and the table is untouched. *)
Theorem from_add_molecule_requests_ids requests st :
  ∃ mols,
    Models.from_add_molecule_requests requests st
    = (Ok mols, {| molecules := molecules st;
                   next_id := next_id st + Z.of_nat (length requests) |})
    ∧ molecule_id <$> mols = seqZ (next_id st) (Z.of_nat (length requests))
    ∧ NoDup (molecule_id <$> mols)
    ∧ smiles <$> mols = Models.AddMoleculeRequest.smiles <$> requests
    ∧ name <$> mols = Models.AddMoleculeRequest.molecule_name <$> requests
    ∧ description <$> mols = Models.AddMoleculeRequest.description <$> requests.
Proof.
  eexists. split; [apply from_add_molecule_requests_spec|].
  assert (molecule_id <$> imap (λ i r, {| molecule_id := next_id st + Z.of_nat i;
                         smiles := Models.AddMoleculeRequest.smiles r;
                         name := Models.AddMoleculeRequest.molecule_name r;
                         description := Models.AddMoleculeRequest.description r |})
              requests
          = seqZ (next_id st) (Z.of_nat (length requests))) as Hids.
  { apply list_eq. intros i. rewrite list_lookup_fmap, list_lookup_imap.
    destruct (requests !! i) as [r|] eqn:Hr; simpl.
    - symmetry. apply lookup_seqZ. split; [done|].
      apply lookup_lt_Some in Hr. lia.
    - symmetry. apply lookup_seqZ_ge. apply lookup_ge_None in Hr. lia. }
  split; [done|]. split; [rewrite Hids; apply NoDup_seqZ|].
  repeat split; apply list_eq; intros i;
    rewrite !list_lookup_fmap, list_lookup_imap; by destruct (requests !! i).
Qed.

Lemma from_molecule_self_href molecule :
  Models.MoleculeResponse.links (Models.from_molecule molecule) !! "self"
  = Some {| Models.href := "/molecules/" +:+ pretty (molecule_id molecule);
            Models.rel := "self"; Models.type := "GET" |}.
Proof. reflexivity. Qed.

Lemma from_molecule_search_href molecule :
  Models.MoleculeResponse.links (Models.from_molecule molecule) !! "substructure_search"
  = Some {| Models.href := "/molecules/substructure_search?smiles=" +:+ smiles molecule;
            Models.rel := "substructure_search"; Models.type := "GET" |}.
Proof. reflexivity. Qed.

(** X15: the response built from a molecule carries its id, notation,
    name and description and exactly two links, [self] and
    [substructure_search]; the [self] link of two molecules is the same
    only if they have the same id, and the search link is the same only
    if they have the same notation. *)
Theorem from_molecule_links m1 m2 :
  (Models.MoleculeResponse.molecule_id (Models.from_molecule m1) = molecule_id m1
   ∧ Models.MoleculeResponse.smiles (Models.from_molecule m1) = smiles m1
   ∧ Models.MoleculeResponse.molecule_name (Models.from_molecule m1) = name m1
   ∧ Models.MoleculeResponse.description (Models.from_molecule m1) = description m1)
  ∧ dom (Models.MoleculeResponse.links (Models.from_molecule m1))
    = ({[ "self"; "substructure_search" ]} : gset string)
  ∧ (Models.MoleculeResponse.links (Models.from_molecule m1) !! "self"
     = Models.MoleculeResponse.links (Models.from_molecule m2) !! "self"
     → molecule_id m1 = molecule_id m2)
  ∧ (Models.MoleculeResponse.links (Models.from_molecule m1) !! "substructure_search"
     = Models.MoleculeResponse.links (Models.from_molecule m2) !! "substructure_search"
     → smiles m1 = smiles m2).
Proof.
  split; [done|]. split; [|split].
  - unfold Models.from_molecule. simpl.
    by rewrite dom_insert_L, dom_singleton_L.
  - rewrite !from_molecule_self_href. intros [= Hhref].
    apply (inj (String.app "")) in Hhref. by apply (inj pretty) in Hhref.
  - rewrite !from_molecule_search_href. intros [= Hhref].
    by apply (inj (String.app "")) in Hhref.
Qed.

(** ** Pages *)

(** X16: for a page number and a page size that are not negative,
    [find_all] never raises and leaves the store alone, a page holds at
    most [page_size] records, and a page followed by the next one is
    the stretch of twice that length of the table, in insertion order,
    starting at offset [page * page_size]. *)
Theorem find_all_pages st page page_size :
  0 ≤ page → 0 ≤ page_size →
  ∃ first second,
    find_all page page_size st = (Ok first, st)
    ∧ find_all (page + 1) page_size st = (Ok second, st)
    ∧ (length first ≤ Z.to_nat page_size)%nat
    ∧ first ++ second
      = to_response <$> take (2 * Z.to_nat page_size)
                             (drop (Z.to_nat page * Z.to_nat page_size) (molecules st)).
Proof.
  intros Hpage Hsize. eexists _, _.
  split; [reflexivity|]. split; [reflexivity|]. split.
  - rewrite length_fmap, length_take. lia.
  - rewrite <- fmap_app. f_equal.
    replace (Z.to_nat (page + 1) * Z.to_nat page_size)%nat
      with (Z.to_nat page * Z.to_nat page_size + Z.to_nat page_size)%nat by lia.
    rewrite <- drop_drop, take_take_drop. f_equal. lia.
Qed.

Lemma find_all_pages_witness :
  ∃ first second,
    find_all 0 1 alcohol_store = (Ok first, alcohol_store)
    ∧ find_all (0 + 1) 1 alcohol_store = (Ok second, alcohol_store)
    ∧ (length first ≤ Z.to_nat 1)%nat
    ∧ first ++ second
      = to_response <$> take (2 * Z.to_nat 1)
                             (drop (Z.to_nat 0 * Z.to_nat 1) (molecules alcohol_store)).
Proof. apply (find_all_pages alcohol_store 0 1); lia. Defined.

(** ** Calls in a row *)

Lemma smiles_key (l : list Molecule) m1 m2 :
  NoDup (smiles <$> l) → m1 ∈ l → m2 ∈ l → smiles m1 = smiles m2 → m1 = m2.
Proof.
  intros Hdup H1 H2 Heq.
  assert (m1 ∈ filter (λ m, smiles m = smiles m2) l) as Hin
    by (by apply list_elem_of_filter).
  destruct (filter (λ m, smiles m = smiles m2) l) as [|first same] eqn:Hf;
    [by apply elem_of_nil in Hin|].
  assert (head (filter (λ m, smiles m = smiles m2) l) = Some first) as Hhead
    by (by rewrite Hf).
  rewrite (same_smiles_head _ _ _ Hdup Hhead m1 H1 Heq).
  by rewrite (same_smiles_head _ _ _ Hdup Hhead m2 H2 eq_refl).
Qed.

Lemma replace_twice (l : list Molecule) obj_id data :
  (λ m, if bool_decide (molecule_id m = obj_id)
        then MoleculeRepository.replace_fields data m else m)
    <$> ((λ m, if bool_decide (molecule_id m = obj_id)
               then MoleculeRepository.replace_fields data m else m) <$> l)
  = (λ m, if bool_decide (molecule_id m = obj_id)
          then MoleculeRepository.replace_fields data m else m) <$> l.
Proof.
  rewrite <- list_fmap_compose. apply list_fmap_ext. intros i m _. simpl.
  destruct (decide (molecule_id m = obj_id)) as [Hm|Hm].
  - rewrite !(bool_decide_true (molecule_id m = obj_id)) by done. simpl.
    by rewrite ?bool_decide_true by done.
  - rewrite !(bool_decide_false (molecule_id m = obj_id)) by done.
    by rewrite ?bool_decide_false by done.
Qed.

Lemma update_again_wf st obj_id r resp st' :
  well_formed st →
  update obj_id r st = (Ok resp, st') →
  update obj_id r st' = (Ok resp, st').
Proof.
  intros Hwf Hupdate.
  pose proof (well_formed_service_update st obj_id r Hwf) as Hwf'.
  unfold final in Hwf'. rewrite Hupdate in Hwf'. simpl in Hwf'.
  destruct (decide (has_id st obj_id)) as [Hid|Hno];
    [|unfold update, bind in Hupdate;
      by rewrite (exists_by_id_false _ _ Hno) in Hupdate].
  destruct (update_guard st obj_id (req_smiles r)) eqn:Hguard;
    [by rewrite (update_present _ _ _ Hid), Hguard in Hupdate|].
  rewrite (update_accepted _ _ _ Hid Hguard) in Hupdate.
  injection Hupdate as <- <-.
  set (st' := final (MoleculeRepository.update obj_id r) st) in *.
  apply Exists_exists in Hid as (m0 & Hm0 & Hid0).
  assert (MoleculeRepository.replace_fields r m0 ∈ molecules st') as Hnew.
  { unfold st', final. simpl.
    apply list_elem_of_fmap. exists m0. split; [|done].
    by rewrite bool_decide_true. }
  assert (has_id st' obj_id) as Hid'.
  { apply Exists_exists. eexists. split; [exact Hnew|]. done. }
  assert (update_guard st' obj_id (req_smiles r) = false) as Hguard'.
  { apply not_true_is_false. intros Hg.
    apply update_guard_held in Hg.
    apply Exists_exists in Hg as (m & Hm & Hs & Hne). apply Hne.
    rewrite (smiles_key (molecules st') m (MoleculeRepository.replace_fields r m0));
      [done|apply Hwf'|done..]. }
  rewrite (update_accepted _ _ _ Hid' Hguard'). f_equal.
  unfold st', final. simpl. apply store_with; [|done].
  apply replace_twice.
Qed.

Lemma delete_frees_wf st m r :
  well_formed st → m ∈ molecules st → req_smiles r = smiles m →
  ∃ resp st', save r (final (delete (molecule_id m)) st) = (Ok resp, st')
              ∧ resp_molecule_id resp = next_id st
              ∧ resp_molecule_id resp ≠ molecule_id m
              ∧ ¬ has_id st (resp_molecule_id resp).
Proof.
  intros [Hids Hsmiles Hfresh] Hm Hreq.
  assert (has_id st (molecule_id m)) as Hid by (apply Exists_exists; by exists m).
  assert (delete (molecule_id m) st
          = (Ok true, {| molecules := filter (λ m', molecule_id m' ≠ molecule_id m)
                                             (molecules st);
                         next_id := next_id st |})) as Hdelete.
  { unfold delete, bind. rewrite (exists_by_id_true _ _ Hid). simpl.
    unfold MoleculeRepository.delete. by rewrite bool_decide_true. }
  unfold final. rewrite Hdelete. cbn [snd].
  rewrite save_fresh.
  - eexists _, _. split; [reflexivity|]. simpl.
    rewrite Forall_forall in Hfresh.
    split; [done|]. split.
    + specialize (Hfresh m Hm). simpl in Hfresh. lia.
    + intros (m' & Hm' & Hid')%Exists_exists.
      specialize (Hfresh m' Hm'). simpl in Hfresh. lia.
  - intros (m' & Hm' & Hs')%Exists_exists. simpl in Hm'.
    apply list_elem_of_filter in Hm' as [Hne Hm'].
    apply Hne. f_equal. apply (smiles_key (molecules st)); [done..|congruence].
Qed.

Section sequences.
Context `{Chem}.

(** X17: on every store the service can reach, repeating an [update]
    that returned a record returns the same record again and changes
    nothing more. *)
Theorem update_again st obj_id molecule_request resp st' :
  reachable st →
  update obj_id molecule_request st = (Ok resp, st') →
  update obj_id molecule_request st' = (Ok resp, st').
Proof.
  intros Hreach. apply update_again_wf. by apply reachable_well_formed.
Qed.

(** X18: on every store the service can reach, deleting a record frees
    its notation: a [save] of that notation right after the [delete]
    succeeds, and the record it returns carries the id counter's value,
    an id that no record had, the deleted one included. *)
Theorem delete_frees_notation st m molecule_request :
  reachable st → m ∈ molecules st → req_smiles molecule_request = smiles m →
  ∃ resp st', save molecule_request (final (delete (molecule_id m)) st) = (Ok resp, st')
              ∧ resp_molecule_id resp = next_id st
              ∧ resp_molecule_id resp ≠ molecule_id m
              ∧ ¬ has_id st (resp_molecule_id resp).
Proof.
  intros Hreach. apply delete_frees_wf. by apply reachable_well_formed.
Qed.

End sequences.

Lemma update_again_witness :
  update 2 {| req_smiles := "CCC"; req_name := None; req_description := None |}
    {| molecules := [methanol; {| molecule_id := 2; smiles := "CCC";
                                  name := None; description := None |}];
       next_id := 3 |}
  = (Ok {| resp_molecule_id := 2; resp_smiles := "CCC"; resp_name := None;
           resp_description := None |},
     {| molecules := [methanol; {| molecule_id := 2; smiles := "CCC";
                                   name := None; description := None |}];
        next_id := 3 |}).
Proof.
  apply (@update_again ToyChem.chem alcohol_store 2
           {| req_smiles := "CCC"; req_name := None; req_description := None |}).
  - exact alcohol_store_reachable.
  - reflexivity.
Defined.

Lemma delete_frees_notation_witness :
  ∃ resp st', save ethanol_request (final (delete 2) alcohol_store) = (Ok resp, st')
              ∧ resp_molecule_id resp = 3
              ∧ resp_molecule_id resp ≠ 2
              ∧ ¬ has_id alcohol_store (resp_molecule_id resp).
Proof.
  apply (@delete_frees_notation ToyChem.chem alcohol_store ethanol ethanol_request).
  - exact alcohol_store_reachable.
  - right. by left.
  - reflexivity.
Defined.
